(** * Cycles: the principled diffuse closure and the CPU work scheduler

    A shallow embedding of
    [intern/cycles/kernel/closure/bsdf_principled_diffuse.h] and of the
    scheduling contract declared in
    [intern/cycles/integrator/path_trace_work_cpu.h].

    Single-precision values are IEEE-754 binary32 numbers, taken from the
    Standard Library's [SpecFloat] at precision 24 and maximal exponent 128,
    every C operator being one correctly rounded operation (no fused
    multiply-add contraction).  Output parameters ([float *pdf],
    [float3 *eval], ...) are passed in with their value before the call and
    handed back with their value after it. *)

From Stdlib Require Import ZArith Bool List Lia Permutation.
From Stdlib Require String.
From Stdlib Require Import Floats.SpecFloat.
Import ListNotations.

Set Implicit Arguments.

(** ** Single-precision arithmetic *)

Module F32.

Definition prec : Z := 24.
Definition emax : Z := 128.

Definition float : Type := spec_float.

Definition add : float -> float -> float := SFadd prec emax.
Definition sub : float -> float -> float := SFsub prec emax.
Definition mul : float -> float -> float := SFmul prec emax.
Definition neg : float -> float := SFopp.

(** [a < b], [a <= b] and [a > b] of C: false as soon as an operand is a
    NaN. *)
Definition ltb : float -> float -> bool := SFltb.
Definition leb : float -> float -> bool := SFleb.
Definition gtb (a b : float) : bool := SFltb b a.

(** The value [m * 2^e], rounded to nearest even. *)
Definition of_scaled (m e : Z) : float := binary_normalize prec emax m e false.

(** Conversion of an integer literal ([0], [1], [2] in the source). *)
Definition of_int (n : Z) : float := of_scaled n 0.

Definition zero : float := S754_zero false.
Definition one : float := of_int 1.
Definition two : float := of_int 2.
Definition half : float := of_scaled 1 (-1).

Definition is_nan (a : float) : bool :=
  match a with S754_nan => true | _ => false end.

(** [fmaxf] of the C library: a NaN operand is ignored in favour of the
    other one. *)
Definition fmaxf (a b : float) : float :=
  if is_nan a then b
  else if is_nan b then a
  else if ltb a b then b else a.

End F32.

Declare Scope f32_scope.
Delimit Scope f32_scope with f32.
Bind Scope f32_scope with F32.float.
Infix "+" := F32.add : f32_scope.
Infix "-" := F32.sub : f32_scope.
Infix "*" := F32.mul : f32_scope.
Notation "- a" := (F32.neg a) : f32_scope.
Infix "<?" := F32.ltb : f32_scope.
Infix "<=?" := F32.leb : f32_scope.
Infix ">?" := F32.gtb : f32_scope.

Abbreviation float := F32.float.

(** ** Three-component vectors *)

Record float3 : Type := make_float3 { x : float; y : float; z : float }.

(** The vector operators used by the ray-differential update, component by
    component. *)
Definition float3_scale (f : float) (a : float3) : float3 :=
  make_float3 (x a * f)%f32 (y a * f)%f32 (z a * f)%f32.

Definition float3_sub (a b : float3) : float3 :=
  make_float3 (x a - x b)%f32 (y a - y b)%f32 (z a - z b)%f32.

Definition float3_neg (a : float3) : float3 :=
  make_float3 (- x a)%f32 (- y a)%f32 (- z a)%f32.

Definition float3_zero : float3 := make_float3 F32.zero F32.zero F32.zero.

(** ** What the closure takes from the rest of the kernel

    [bsdf_util.h] and the kernel type headers are outside the two files
    embedded here; the helpers and constants that the closure uses from them
    are the fields of this interface.  [sample_cos_hemisphere] hands back
    the direction and the density that it stores through its two pointers. *)

Class KernelUtil : Type := {
  dot : float3 -> float3 -> float;
  schlick_fresnel : float -> float;
  sample_cos_hemisphere : float3 -> float -> float -> float3 * float;
  M_1_PI_F : float;
  CLOSURE_BSDF_PRINCIPLED_DIFFUSE_ID : Z;
  SD_BSDF : Z;
  SD_BSDF_HAS_EVAL : Z;
  LABEL_REFLECT : Z;
  LABEL_DIFFUSE : Z;
  RAY_DIFFERENTIALS : bool
}.

(** ** The closure record

    [SHADER_CLOSURE_BASE] contributes the type tag and the shading normal
    read by the code below; [roughness] is the closure's own field. *)

Record PrincipledDiffuseBsdf : Type := {
  closure_type : Z;
  closure_N : float3;
  roughness : float
}.

(** The functions receive a [ShaderClosure] pointer and cast it to the
    closure record. *)
Definition ShaderClosure : Type := PrincipledDiffuseBsdf.

(** Output parameters of [bsdf_principled_diffuse_sample]. *)
Record SampleOut : Type := {
  eval : float3;
  omega_in : float3;
  domega_in_dx : float3;
  domega_in_dy : float3;
  pdf : float
}.

Section Closure.

Context {K : KernelUtil}.

Local Open Scope f32_scope.

Definition calculate_principled_diffuse_brdf
    (bsdf : PrincipledDiffuseBsdf) (N V L : float3) (pdf : float)
  : float3 * float :=
  let NdotL := dot N L in
  if NdotL <=? F32.zero then (make_float3 F32.zero F32.zero F32.zero, pdf)
  else
    let NdotV := dot N V in
    let LH2 := dot L V + F32.one in
    let FL := schlick_fresnel NdotL in
    let FV := schlick_fresnel NdotV in
    let Fd90 := F32.half + LH2 * roughness bsdf in
    let Fd := (F32.one - FL + Fd90 * FL) * (F32.one - FV + Fd90 * FV) in
    let value := M_1_PI_F * NdotL * Fd in
    (make_float3 value value value, pdf).

Definition bsdf_principled_diffuse_setup (bsdf : PrincipledDiffuseBsdf)
  : Z * PrincipledDiffuseBsdf :=
  let bsdf' := {| closure_type := CLOSURE_BSDF_PRINCIPLED_DIFFUSE_ID;
                  closure_N := closure_N bsdf;
                  roughness := roughness bsdf |} in
  (Z.lor SD_BSDF SD_BSDF_HAS_EVAL, bsdf').

Definition bsdf_principled_diffuse_eval_reflect
    (sc : ShaderClosure) (I omega_in : float3) (pdf : float)
  : float3 * float :=
  let bsdf := sc in
  let N := closure_N bsdf in
  let V := I in
  let L := omega_in in
  if dot N omega_in >? F32.zero then
    let pdf := F32.fmaxf (dot N omega_in) F32.zero * M_1_PI_F in
    calculate_principled_diffuse_brdf bsdf N V L pdf
  else
    let pdf := F32.zero in
    (make_float3 F32.zero F32.zero F32.zero, pdf).

Definition bsdf_principled_diffuse_eval_transmit
    (sc : ShaderClosure) (I omega_in : float3) (pdf : float)
  : float3 * float :=
  (make_float3 F32.zero F32.zero F32.zero, pdf).

Definition bsdf_principled_diffuse_sample
    (sc : ShaderClosure) (Ng I dIdx dIdy : float3) (randu randv : float)
    (out : SampleOut)
  : Z * SampleOut :=
  let bsdf := sc in
  let N := closure_N bsdf in
  let '(w, p) := sample_cos_hemisphere N randu randv in
  let out1 := {| eval := eval out; omega_in := w;
                 domega_in_dx := domega_in_dx out;
                 domega_in_dy := domega_in_dy out; pdf := p |} in
  let out2 :=
    if dot Ng (omega_in out1) >? F32.zero then
      let '(e, p') :=
        calculate_principled_diffuse_brdf bsdf N I (omega_in out1) (pdf out1) in
      if RAY_DIFFERENTIALS then
        {| eval := e; omega_in := omega_in out1;
           domega_in_dx :=
             float3_neg (float3_sub
               (float3_scale (F32.two * dot N dIdx) N) dIdx);
           domega_in_dy :=
             float3_neg (float3_sub
               (float3_scale (F32.two * dot N dIdy) N) dIdy);
           pdf := p' |}
      else
        {| eval := e; omega_in := omega_in out1;
           domega_in_dx := domega_in_dx out1;
           domega_in_dy := domega_in_dy out1; pdf := p' |}
    else
      {| eval := eval out1; omega_in := omega_in out1;
         domega_in_dx := domega_in_dx out1;
         domega_in_dy := domega_in_dy out1; pdf := F32.zero |} in
  (Z.lor LABEL_REFLECT LABEL_DIFFUSE, out2).

End Closure.

(** ** The contribution as the specification words it

    [(1/pi) . NdotL . (1 - FL + Fd90.FL) . (1 - FV + Fd90.FV)] with
    [Fd90 = 0.5 + (dot(L,V) + 1) . roughness], each operation rounded to
    single precision and the two Fresnel factors multiplied together before
    they scale [(1/pi) . NdotL]. *)

Section Specification.

Context {K : KernelUtil}.

Local Open Scope f32_scope.

Definition grazing_term (rough LdotV : float) : float :=
  F32.half + (LdotV + F32.one) * rough.

Definition fresnel_weight (Fd90 F : float) : float :=
  F32.one - F + Fd90 * F.

Definition principled_diffuse_value (rough NdotL NdotV LdotV : float) : float :=
  let Fd90 := grazing_term rough LdotV in
  M_1_PI_F * NdotL *
    (fresnel_weight Fd90 (schlick_fresnel NdotL) *
     fresnel_weight Fd90 (schlick_fresnel NdotV)).

Definition replicate3 (v : float) : float3 := make_float3 v v v.

End Specification.

(** ** A concrete kernel

    One instance of the interface, on which the statements below are
    exercised: the dot product as the sum of the component products, the
    Schlick weight [(1 - u)^5] on the clamped complement, and a
    cosine-weighted direction built on a tangent frame of the normal from
    the two numbers taken as disk coordinates.  The integer constants are
    distinct bits chosen for this instance. *)

Module Reference.

Local Open Scope f32_scope.

Definition div : float -> float -> float := SFdiv F32.prec F32.emax.
Definition sqrtf : float -> float := SFsqrt F32.prec F32.emax.

Definition dot3 (a b : float3) : float :=
  x a * x b + y a * y b + z a * z b.

Definition cross (a b : float3) : float3 :=
  make_float3 (y a * z b - z a * y b)
              (z a * x b - x a * z b)
              (x a * y b - y a * x b).

Definition normalize (a : float3) : float3 :=
  let len := sqrtf (dot3 a a) in
  make_float3 (div (x a) len) (div (y a) len) (div (z a) len).

Definition float3_add (a b : float3) : float3 :=
  make_float3 (x a + x b) (y a + y b) (z a + z b).

Definition fminf (a b : float) : float :=
  if F32.is_nan a then b
  else if F32.is_nan b then a
  else if a <? b then a else b.

Definition schlick (u : float) : float :=
  let m := fminf (F32.fmaxf (F32.one - u) F32.zero) F32.one in
  let m2 := m * m in
  m2 * m2 * m.

(** 0x3EA2F983, the single-precision number nearest to 1/pi. *)
Definition inv_pi : float := S754_finite false 10680707 (-25).

Definition cos_hemisphere (N : float3) (u v : float) : float3 * float :=
  let costheta := sqrtf (F32.fmaxf (F32.one - u * u - v * v) F32.zero) in
  let T := normalize (cross N (make_float3 F32.one F32.one F32.one)) in
  let B := cross N T in
  (float3_add (float3_add (float3_scale u T) (float3_scale v B))
              (float3_scale costheta N),
   costheta * inv_pi).

Definition kernel : KernelUtil := {|
  dot := dot3;
  schlick_fresnel := schlick;
  sample_cos_hemisphere := cos_hemisphere;
  M_1_PI_F := inv_pi;
  CLOSURE_BSDF_PRINCIPLED_DIFFUSE_ID := 1;
  SD_BSDF := 4;
  SD_BSDF_HAS_EVAL := 8;
  LABEL_REFLECT := 2;
  LABEL_DIFFUSE := 4;
  RAY_DIFFERENTIALS := true
|}.

(** Sample data: the axis [+Z] as normal, its opposite, a direction at
    45 degrees, and a few scalars. *)
Definition of_ratio (m e : Z) : float := F32.of_scaled m e.

Definition up : float3 := make_float3 F32.zero F32.zero F32.one.
Definition down : float3 := make_float3 F32.zero F32.zero (- F32.one).
Definition slanted : float3 :=
  make_float3 (of_ratio 11863283 (-24)) F32.zero (of_ratio 11863283 (-24)).

Definition closure (rough : float) : PrincipledDiffuseBsdf :=
  {| closure_type := 0; closure_N := up; roughness := rough |}.

Definition blank : SampleOut :=
  {| eval := float3_zero; omega_in := float3_zero;
     domega_in_dx := float3_zero; domega_in_dy := float3_zero;
     pdf := F32.one |}.

(** A closure of roughness two, past the unit interval of the shader's
    roughness input. *)
Definition rough_closure : PrincipledDiffuseBsdf := closure F32.two.

Definition in_unit_interval (r : float) : bool :=
  (F32.zero <=? r) && (r <=? F32.one).

End Reference.

(** ** The tile scheduler of [PathTraceWorkCPU]

    [path_trace_work_cpu.h] declares [render_samples], the cancellation flag
    handed to the constructor, the per-thread kernel globals and
    [render_samples_full_pipeline]; the bodies are not part of the files
    embedded here, so the scheduler below follows the design document.
    Workers and the party that requests cancellation interleave at the
    grain of one (pixel, sample) evaluation: an execution is a list of
    events, each performed atomically. *)

Module PathTraceWorkCPU.

(** Modelled from the spec: the work tile, whose declaration is missing;
    a rectangle of pixels, a sample range and the offset and stride into
    the render buffers. *)
Record KernelWorkTile : Type := {
  tile_x : Z;
  tile_y : Z;
  tile_w : nat;
  tile_h : nat;
  start_sample : Z;
  num_samples : nat;
  offset : Z;
  stride : Z
}.

(** One run of the pipeline: pixel column, pixel row, sample index. *)
Definition WorkItem : Type := (Z * Z * Z)%type.

Definition span (first : Z) (count : nat) : list Z :=
  map (fun i => (first + Z.of_nat i)%Z) (seq 0 count).

(** Modelled from the spec: the body of [render_samples_full_pipeline]
    is missing; a tile is worked through as pixels times samples, once for
    each (pixel, sample) pair of the tile. *)
Definition tile_work (t : KernelWorkTile) : list WorkItem :=
  flat_map (fun py =>
    flat_map (fun px =>
      map (fun smp => (px, py, smp)) (span (start_sample t) (num_samples t)))
      (span (tile_x t) (tile_w t)))
    (span (tile_y t) (tile_h t)).

Section Scheduler.

(** The render buffers and the pipeline that accumulates one sample of
    one pixel into them belong to the kernel. *)
Variable RenderBuffers : Type.
Variable full_pipeline : WorkItem -> RenderBuffers -> RenderBuffers.

(** Modelled from the spec: the state of [render_samples], whose body is
    missing.  [queue] holds the tiles not yet handed out, [in_flight]
    the work left in the tile of each worker (empty for a worker
    between tiles), [cancel_requested] the flag.  The last three fields
    record what happened: the tiles started, the tiles passed over and
    the pipeline runs in the order they were made. *)
Record State : Type := {
  queue : list KernelWorkTile;
  in_flight : list (list WorkItem);
  cancel_requested : bool;
  render_buffers : RenderBuffers;
  started : list KernelWorkTile;
  skipped : list KernelWorkTile;
  history : list WorkItem
}.

(** Modelled from the spec: what can happen while [render_samples] runs,
    its body being missing: cancellation is requested, a worker between
    tiles turns to the next tile, a worker inside a tile runs one sample. *)
Inductive Event : Type :=
| RequestCancel
| NextTile (worker : nat)
| RunSample (worker : nat).

Fixpoint set_worker (w : nat) (job : list WorkItem)
    (ws : list (list WorkItem)) : list (list WorkItem) :=
  match ws, w with
  | [], _ => []
  | _ :: rest, O => job :: rest
  | j :: rest, S w' => j :: set_worker w' job rest
  end.

(** Modelled from the spec: the body of [render_samples] is missing.
    A worker between tiles takes the next tile off the queue and polls
    the flag there: with the flag raised the tile is passed over,
    otherwise the whole tile becomes the worker's work.  A worker inside
    a tile runs the pipeline on its next (pixel, sample) pair and does
    not look at the flag.  Raising the flag touches nothing else. *)
Definition step (e : Event) (s : State) : option State :=
  match e with
  | RequestCancel =>
      Some {| queue := queue s; in_flight := in_flight s;
              cancel_requested := true;
              render_buffers := render_buffers s;
              started := started s; skipped := skipped s;
              history := history s |}
  | NextTile w =>
      match nth_error (in_flight s) w, queue s with
      | Some [], t :: q =>
          if cancel_requested s then
            Some {| queue := q; in_flight := in_flight s;
                    cancel_requested := cancel_requested s;
                    render_buffers := render_buffers s;
                    started := started s; skipped := skipped s ++ [t];
                    history := history s |}
          else
            Some {| queue := q;
                    in_flight := set_worker w (tile_work t) (in_flight s);
                    cancel_requested := cancel_requested s;
                    render_buffers := render_buffers s;
                    started := started s ++ [t]; skipped := skipped s;
                    history := history s |}
      | _, _ => None
      end
  | RunSample w =>
      match nth_error (in_flight s) w with
      | Some (item :: rest) =>
          Some {| queue := queue s;
                  in_flight := set_worker w rest (in_flight s);
                  cancel_requested := cancel_requested s;
                  render_buffers := full_pipeline item (render_buffers s);
                  started := started s; skipped := skipped s;
                  history := history s ++ [item] |}
      | _ => None
      end
  end.

(** Modelled from the spec: an execution is the events performed one after
    the other; an event that cannot happen in the state reached ends it
    with no result. *)
Fixpoint exec (es : list Event) (s : State) : option State :=
  match es with
  | [] => Some s
  | e :: es' =>
      match step e s with
      | Some s' => exec es' s'
      | None => None
      end
  end.

(** Modelled from the spec: entry into [render_samples], whose body is
    missing; every worker is between tiles and the flag is as the caller
    left it. *)
Definition init (workers : nat) (tiles : list KernelWorkTile)
    (cancel : bool) (b : RenderBuffers) : State :=
  {| queue := tiles; in_flight := repeat [] workers;
     cancel_requested := cancel; render_buffers := b;
     started := []; skipped := []; history := [] |}.

Definition is_idle (job : list WorkItem) : bool :=
  match job with [] => true | _ :: _ => false end.

(** Modelled from the spec: [render_samples], whose body is missing,
    returns when the queue is empty and no worker is inside a tile. *)
Definition finished (s : State) : bool :=
  match queue s with
  | [] => forallb is_idle (in_flight s)
  | _ :: _ => false
  end.

(** The states in which a call of [render_samples] can return. *)
Definition render_samples (workers : nat) (tiles : list KernelWorkTile)
    (cancel : bool) (b : RenderBuffers) (s : State) : Prop :=
  exists es, exec es (init workers tiles cancel b) = Some s
             /\ finished s = true.

(** The buffers after the pipeline has run on [items], first to last. *)
Definition accumulate (items : list WorkItem) (b : RenderBuffers)
  : RenderBuffers :=
  fold_left (fun acc item => full_pipeline item acc) items b.

(** Work left: one poll and all the samples of each queued tile, plus
    the samples left in the tiles in flight. *)
Definition remaining (s : State) : nat :=
  length (queue s) + length (flat_map tile_work (queue s))
  + length (concat (in_flight s)).

Definition is_cancel (e : Event) : bool :=
  match e with RequestCancel => true | _ => false end.

(** The invariant of an execution started on [tiles] with buffers [b0]
    and [workers] workers. *)
Record Inv (workers : nat) (tiles : list KernelWorkTile)
    (b0 : RenderBuffers) (s : State) : Prop := {
  inv_workers : length (in_flight s) = workers;
  inv_buffers : render_buffers s = accumulate (history s) b0;
  inv_tiles : tiles = started s ++ skipped s ++ queue s;
  inv_skipped : cancel_requested s = false -> skipped s = [];
  inv_work :
    Permutation (history s ++ concat (in_flight s))
                (flat_map tile_work (started s))
}.

End Scheduler.

(** Render buffers that keep, per pixel, the number of samples
    accumulated, for exercising the scheduler. *)
Definition SampleCounts : Type := list (Z * Z * nat).

Fixpoint count_sample (px py : Z) (b : SampleCounts) : SampleCounts :=
  match b with
  | [] => [(px, py, 1%nat)]
  | (qx, qy, n) :: rest =>
      if ((px =? qx) && (py =? qy))%Z then (qx, qy, S n) :: rest
      else (qx, qy, n) :: count_sample px py rest
  end.

Definition count_pipeline (item : WorkItem) (b : SampleCounts) : SampleCounts :=
  let '(px, py, _) := item in count_sample px py b.

Definition pixel_tile (px py : Z) (samples : nat) : KernelWorkTile :=
  {| tile_x := px; tile_y := py; tile_w := 1; tile_h := 1;
     start_sample := 0; num_samples := samples; offset := 0; stride := 0 |}.

(** Four tiles of one pixel and two samples, two workers; cancellation is
    requested once the first tile has been handed out. *)
Definition four_tiles : list KernelWorkTile :=
  [pixel_tile 0 0 2; pixel_tile 1 0 2; pixel_tile 2 0 2; pixel_tile 3 0 2].

Definition cancelled_run : list Event :=
  [NextTile 0; RequestCancel; RunSample 0; RunSample 0;
   NextTile 0; NextTile 0; NextTile 1].

Definition cancelled_end : State SampleCounts :=
  {| queue := [];
     in_flight := [[]; []];
     cancel_requested := true;
     render_buffers := [(0%Z, 0%Z, 2%nat)];
     started := [pixel_tile 0 0 2];
     skipped := [pixel_tile 1 0 2; pixel_tile 2 0 2; pixel_tile 3 0 2];
     history := [(0%Z, 0%Z, 0%Z); (0%Z, 0%Z, 1%Z)] |}.

End PathTraceWorkCPU.

(** ** More single-precision operations

    Division, the comparisons [==] and [!=] of C (a NaN differs from
    everything, the two zeros are equal) and the literals of the gizmo
    code. *)

Module F32More.

Definition div : float -> float -> float := SFdiv F32.prec F32.emax.
Definition eqb : float -> float -> bool := SFeqb.
Definition neqb (a b : float) : bool := negb (SFeqb a b).

Definition three : float := F32.of_int 3.

(** [1.5f]. *)
Definition one_and_half : float := F32.of_scaled 3 (-1).

(** [0.15f], 0x3E19999A. *)
Definition handle_fraction : float := S754_finite false 10066330 (-26).

End F32More.

Infix "/" := F32More.div : f32_scope.
Infix "=?" := F32More.eqb : f32_scope.

(** ** More sample data for the closure *)

Module Samples.

Import Reference.

Local Open Scope f32_scope.

(** The concrete kernel built without ray differentials. *)
Definition kernel_no_differentials : KernelUtil := {|
  dot := dot3;
  schlick_fresnel := schlick;
  sample_cos_hemisphere := cos_hemisphere;
  M_1_PI_F := inv_pi;
  CLOSURE_BSDF_PRINCIPLED_DIFFUSE_ID := 1;
  SD_BSDF := 4;
  SD_BSDF_HAS_EVAL := 8;
  LABEL_REFLECT := 2;
  LABEL_DIFFUSE := 4;
  RAY_DIFFERENTIALS := false
|}.

(** A closure whose normal has length [2^60.5], and a first random number of
    [2^100]: the products of the dot product overflow with opposite signs. *)
Definition oversized_normal : float3 :=
  make_float3 (F32.of_scaled 1 60) (F32.of_scaled 1 60) F32.zero.

Definition oversized_closure : PrincipledDiffuseBsdf :=
  {| closure_type := 0; closure_N := oversized_normal;
     roughness := F32.half |}.

Definition oversized_random : float := F32.of_scaled 1 100.

Definition x_axis : float3 := make_float3 F32.one F32.zero F32.zero.

Definition nan3 : float3 := make_float3 S754_nan S754_nan S754_nan.

(** A closure of roughness one half whose normal, of length near [2^67],
    leans by one part in a thousand off the diagonal, and the random pair
    [(0, 0.9)]: the direction drawn is finite and above [up], with a
    positive density, while the products of its dot product with the
    normal overflow with opposite signs. *)
Definition skewed_normal : float3 :=
  make_float3 (F32.of_scaled 1 66) (F32.of_scaled 1 66)
              (F32.of_scaled 1025 56).

Definition skewed_closure : PrincipledDiffuseBsdf :=
  {| closure_type := 0; closure_N := skewed_normal;
     roughness := F32.half |}.

Definition nine_tenths : float := F32.of_scaled 15099494 (-24).

(** A geometric normal tilted by 45 degrees towards [-X], with the shading
    normal [up]: the direction drawn at [(1/2, 1/2)] is above it, the
    direction drawn at [(1, 0)] lies in the shading horizon. *)
Definition tilted : float3 :=
  make_float3 (- of_ratio 11863283 (-24)) F32.zero (of_ratio 11863283 (-24)).

End Samples.

(** ** The 2D cage gizmo

    An embedding of
    [source/blender/editors/gizmo_library/gizmo_types/cage2d_gizmo.c].
    Integers are unbounded and [&], [|] are [Z.land], [Z.lor]; a condition
    [a & b] holds when the conjunction is not zero. *)

Module Cage2d.

Import String.

Local Open Scope f32_scope.

Definition float2 : Type := (float * float)%type.
Definition float4 : Type := (float * float * float * float)%type.

(** A [float[4][4]] matrix, row by row. *)
Definition mat4 : Type := (float4 * float4 * float4 * float4)%type.

(** A row of a matrix passed where a [float[3]] is expected. *)
Definition row_v3 (r : float4) : float3 :=
  let '(a, b, c, _) := r in make_float3 a b c.

Definition matrix_row0 (m : mat4) : float4 := let '(r, _, _, _) := m in r.
Definition matrix_row1 (m : mat4) : float4 := let '(_, r, _, _) := m in r.

Record rctf : Type := {
  xmin : float;
  xmax : float;
  ymin : float;
  ymax : float
}.

Definition has_flag (value mask : Z) : bool := negb (Z.land value mask =? 0)%Z.

(** What a function leaves behind: it returned, it reached a
    [BLI_assert(0)] (with the result of a build that compiles assertions
    out), or it went through a null pointer. *)
Inductive Outcome (A : Type) : Type :=
| Returned (a : A)
| Asserted (a : A)
| Crashed.

Arguments Returned {A} a.
Arguments Asserted {A} a.
Arguments Crashed {A}.

(** The types of the window manager that the gizmo code only passes
    around. *)
Class GizmoTypes : Type := {
  bContext : Type;
  wmGizmoRest : Type;
  wmGizmoProperty : Type;
  Dial : Type
}.

Section Data.

Context {T : GizmoTypes}.

Record RectTransformInteraction : Type := {
  orig_mouse : float2;
  orig_matrix_offset : mat4;
  orig_matrix_final_no_offset : mat4;
  dial : option Dial
}.

(** The gizmo: the RNA properties read through [gz->ptr], the fields of
    [wmGizmo] that the code names, the flag of the type of its group, and
    the rest of the structure. *)
Record wmGizmo : Type := {
  dimensions : float2;
  transform : Z;
  draw_style : Z;
  draw_options : Z;
  matrix_offset : mat4;
  scale_final : float;
  color : float4;
  line_width : float;
  highlight_part : Z;
  state : Z;
  flag : Z;
  parent_gzgroup_type_flag : Z;
  interaction_data : option RectTransformInteraction;
  rest : wmGizmoRest
}.

Definition set_matrix_offset (gz : wmGizmo) (m : mat4) : wmGizmo :=
  {| dimensions := dimensions gz; transform := transform gz;
     draw_style := draw_style gz; draw_options := draw_options gz;
     matrix_offset := m; scale_final := scale_final gz;
     color := color gz; line_width := line_width gz;
     highlight_part := highlight_part gz; state := state gz;
     flag := flag gz;
     parent_gzgroup_type_flag := parent_gzgroup_type_flag gz;
     interaction_data := interaction_data gz; rest := rest gz |}.

Definition set_flag (gz : wmGizmo) (f : Z) : wmGizmo :=
  {| dimensions := dimensions gz; transform := transform gz;
     draw_style := draw_style gz; draw_options := draw_options gz;
     matrix_offset := matrix_offset gz; scale_final := scale_final gz;
     color := color gz; line_width := line_width gz;
     highlight_part := highlight_part gz; state := state gz;
     flag := f;
     parent_gzgroup_type_flag := parent_gzgroup_type_flag gz;
     interaction_data := interaction_data gz; rest := rest gz |}.

Definition set_interaction_data (gz : wmGizmo)
    (d : option RectTransformInteraction) : wmGizmo :=
  {| dimensions := dimensions gz; transform := transform gz;
     draw_style := draw_style gz; draw_options := draw_options gz;
     matrix_offset := matrix_offset gz; scale_final := scale_final gz;
     color := color gz; line_width := line_width gz;
     highlight_part := highlight_part gz; state := state gz;
     flag := flag gz;
     parent_gzgroup_type_flag := parent_gzgroup_type_flag gz;
     interaction_data := d; rest := rest gz |}.

End Data.

(** The enumerators, flags and functions of the headers that the file
    includes.  [gizmo_window_project_2d] yields the projected point when it
    succeeds; [gz_prop_idname] is [gz_prop->type->idname], absent when
    [gz_prop->type] is null. *)
Class GizmoLib {T : GizmoTypes} : Type := {
  ED_GIZMO_CAGE2D_PART_TRANSLATE : Z;
  ED_GIZMO_CAGE2D_PART_SCALE_MIN_X : Z;
  ED_GIZMO_CAGE2D_PART_SCALE_MAX_X : Z;
  ED_GIZMO_CAGE2D_PART_SCALE_MIN_Y : Z;
  ED_GIZMO_CAGE2D_PART_SCALE_MAX_Y : Z;
  ED_GIZMO_CAGE2D_PART_SCALE_MIN_X_MIN_Y : Z;
  ED_GIZMO_CAGE2D_PART_SCALE_MIN_X_MAX_Y : Z;
  ED_GIZMO_CAGE2D_PART_SCALE_MAX_X_MIN_Y : Z;
  ED_GIZMO_CAGE2D_PART_SCALE_MAX_X_MAX_Y : Z;
  ED_GIZMO_CAGE2D_PART_ROTATE : Z;
  ED_GIZMO_CAGE2D_XFORM_FLAG_TRANSLATE : Z;
  ED_GIZMO_CAGE2D_XFORM_FLAG_ROTATE : Z;
  ED_GIZMO_CAGE2D_XFORM_FLAG_SCALE : Z;
  ED_GIZMO_CAGE2D_XFORM_FLAG_SCALE_UNIFORM : Z;
  ED_GIZMO_CAGE2D_DRAW_FLAG_XFORM_CENTER_HANDLE : Z;
  ED_GIZMO_CAGE2D_STYLE_BOX : Z;
  ED_GIZMO_CAGE2D_STYLE_CIRCLE : Z;
  WM_CURSOR_DEFAULT : Z;
  WM_CURSOR_NSEW_SCROLL : Z;
  WM_CURSOR_CROSS : Z;
  WM_GIZMOGROUPTYPE_3D : Z;
  WM_GIZMO_DRAW_MODAL : Z;
  WM_GIZMO_DRAW_NO_SCALE : Z;
  WM_GIZMO_STATE_HIGHLIGHT : Z;
  OPERATOR_RUNNING_MODAL : Z;
  BLI_rctf_isect_pt_v : rctf -> float2 -> bool;
  BLI_rctf_cent_x : rctf -> float;
  BLI_rctf_cent_y : rctf -> float;
  WM_gizmo_calc_matrix_final : wmGizmo -> mat4;
  WM_gizmo_calc_matrix_final_no_offset : wmGizmo -> mat4;
  mul_v3_mat3_m4v3 : mat4 -> float3 -> float3;
  mul_v2_v2 : float3 -> float2 -> float3;
  len_v3 : float3 -> float;
  gizmo_window_project_2d :
    bContext -> wmGizmo -> float2 -> Z -> bool -> option float2;
  gizmo_color_get : wmGizmo -> bool -> float4;
  WM_gizmo_target_property_find : wmGizmo -> string -> wmGizmoProperty;
  gz_prop_idname : wmGizmoProperty -> option string;
  WM_gizmo_target_property_array_length : wmGizmo -> wmGizmoProperty -> Z;
  WM_gizmo_target_property_float_get_array :
    wmGizmo -> wmGizmoProperty -> mat4;
  U_pixelsize : float
}.

Section Gizmo.

Context {T : GizmoTypes} {G : GizmoLib}.

Definition GIZMO_MARGIN_OFFSET_SCALE : float := F32More.one_and_half.

(** The array [scale_parts] of [gizmo_cage2d_draw_intern]. *)
Definition scale_parts : list Z :=
  [ED_GIZMO_CAGE2D_PART_SCALE_MIN_X;
   ED_GIZMO_CAGE2D_PART_SCALE_MAX_X;
   ED_GIZMO_CAGE2D_PART_SCALE_MIN_Y;
   ED_GIZMO_CAGE2D_PART_SCALE_MAX_Y;
   ED_GIZMO_CAGE2D_PART_SCALE_MIN_X_MIN_Y;
   ED_GIZMO_CAGE2D_PART_SCALE_MIN_X_MAX_Y;
   ED_GIZMO_CAGE2D_PART_SCALE_MAX_X_MIN_Y;
   ED_GIZMO_CAGE2D_PART_SCALE_MAX_X_MAX_Y].

(** The ten parts of the cage. *)
Definition cage_parts : list Z :=
  ED_GIZMO_CAGE2D_PART_TRANSLATE :: scale_parts
  ++ [ED_GIZMO_CAGE2D_PART_ROTATE].

Definition cursors : list Z :=
  [WM_CURSOR_DEFAULT; WM_CURSOR_NSEW_SCROLL; WM_CURSOR_CROSS].

(** The scale comes back only on success; on failure the caller's array is
    left as it was. *)
Definition gizmo_calc_rect_view_scale (gz : wmGizmo) (dims : float2)
  : option float2 :=
  let asp : float2 := (F32.one, F32.one) in
  let asp : float2 :=
    if fst dims >? snd dims then (snd dims / fst dims, snd asp)
    else (fst asp, fst dims / snd dims) in
  let matrix_final_no_offset := WM_gizmo_calc_matrix_final_no_offset gz in
  let x_axis :=
    mul_v3_mat3_m4v3 matrix_final_no_offset
      (row_v3 (matrix_row0 (matrix_offset gz))) in
  let y_axis :=
    mul_v3_mat3_m4v3 matrix_final_no_offset
      (row_v3 (matrix_row1 (matrix_offset gz))) in
  let x_axis := mul_v2_v2 x_axis asp in
  let y_axis := mul_v2_v2 y_axis asp in
  let len_x_axis := len_v3 x_axis in
  let len_y_axis := len_v3 y_axis in
  if (len_x_axis =? F32.zero) || (len_y_axis =? F32.zero) then None
  else Some (F32.one / len_x_axis, F32.one / len_y_axis).

(** The margin is written on both paths, hence handed back with the
    result. *)
Definition gizmo_calc_rect_view_margin (gz : wmGizmo) (dims : float2)
  : bool * float2 :=
  let handle_size := F32More.handle_fraction in
  let handle_size := handle_size * scale_final gz in
  match gizmo_calc_rect_view_scale gz dims with
  | None => (false, (F32.zero, F32.zero))
  | Some scale_xy =>
      (true, (handle_size * fst scale_xy, handle_size * snd scale_xy))
  end.

Definition gizmo_cage2d_get_cursor (gz : wmGizmo) : Z :=
  let highlight_part := highlight_part gz in
  if has_flag (parent_gzgroup_type_flag gz) WM_GIZMOGROUPTYPE_3D then
    WM_CURSOR_NSEW_SCROLL
  else if (highlight_part =? ED_GIZMO_CAGE2D_PART_TRANSLATE)%Z then
    WM_CURSOR_NSEW_SCROLL
  else if ((highlight_part =? ED_GIZMO_CAGE2D_PART_SCALE_MIN_X)
           || (highlight_part =? ED_GIZMO_CAGE2D_PART_SCALE_MAX_X))%Z then
    WM_CURSOR_NSEW_SCROLL
  else if ((highlight_part =? ED_GIZMO_CAGE2D_PART_SCALE_MIN_Y)
           || (highlight_part =? ED_GIZMO_CAGE2D_PART_SCALE_MAX_Y))%Z then
    WM_CURSOR_NSEW_SCROLL
  else if ((highlight_part =? ED_GIZMO_CAGE2D_PART_SCALE_MIN_X_MIN_Y)
           || (highlight_part =? ED_GIZMO_CAGE2D_PART_SCALE_MAX_X_MIN_Y))%Z then
    WM_CURSOR_NSEW_SCROLL
  else if ((highlight_part =? ED_GIZMO_CAGE2D_PART_SCALE_MIN_X_MAX_Y)
           || (highlight_part =? ED_GIZMO_CAGE2D_PART_SCALE_MAX_X_MAX_Y))%Z then
    WM_CURSOR_NSEW_SCROLL
  else if (highlight_part =? ED_GIZMO_CAGE2D_PART_ROTATE)%Z then
    WM_CURSOR_CROSS
  else WM_CURSOR_DEFAULT.

Definition gizmo_cage2d_test_select (C : bContext) (gz : wmGizmo)
    (mval : Z * Z) : Z :=
  let dims := dimensions gz in
  let size_real : float2 := (fst dims / F32.two, snd dims / F32.two) in
  match gizmo_window_project_2d C gz
          (F32.of_int (fst mval), F32.of_int (snd mval)) 2 true with
  | None => (-1)%Z
  | Some point_local =>
  let '(ok, margin) := gizmo_calc_rect_view_margin gz dims in
  if negb ok then (-1)%Z else
  let size : float2 :=
    (fst size_real + fst margin / F32.two,
     snd size_real + snd margin / F32.two) in
  let transform_flag := transform gz in
  let draw_options := draw_options gz in
  if (if has_flag transform_flag ED_GIZMO_CAGE2D_XFORM_FLAG_TRANSLATE then
        let r :=
          if has_flag draw_options
               ED_GIZMO_CAGE2D_DRAW_FLAG_XFORM_CENTER_HANDLE then
            {| xmin := - fst margin / F32.two;
               ymin := - snd margin / F32.two;
               xmax := fst margin / F32.two;
               ymax := snd margin / F32.two |}
          else
            {| xmin := - fst size + fst margin;
               ymin := - snd size + snd margin;
               xmax := fst size - fst margin;
               ymax := snd size - snd margin |} in
        BLI_rctf_isect_pt_v r point_local
      else false)
  then ED_GIZMO_CAGE2D_PART_TRANSLATE else
  let r_xmin :=
    {| xmin := - fst size; ymin := - snd size;
       xmax := - fst size + fst margin; ymax := snd size |} in
  let r_xmax :=
    {| xmin := fst size - fst margin; ymin := - snd size;
       xmax := fst size; ymax := snd size |} in
  let r_ymin :=
    {| xmin := - fst size; ymin := - snd size;
       xmax := fst size; ymax := - snd size + snd margin |} in
  let r_ymax :=
    {| xmin := - fst size; ymin := snd size - snd margin;
       xmax := fst size; ymax := snd size |} in
  let scale_enabled :=
    has_flag transform_flag
      (Z.lor ED_GIZMO_CAGE2D_XFORM_FLAG_SCALE
             ED_GIZMO_CAGE2D_XFORM_FLAG_SCALE_UNIFORM) in
  if scale_enabled && BLI_rctf_isect_pt_v r_xmin point_local then
    if BLI_rctf_isect_pt_v r_ymin point_local then
      ED_GIZMO_CAGE2D_PART_SCALE_MIN_X_MIN_Y
    else if BLI_rctf_isect_pt_v r_ymax point_local then
      ED_GIZMO_CAGE2D_PART_SCALE_MIN_X_MAX_Y
    else ED_GIZMO_CAGE2D_PART_SCALE_MIN_X
  else if scale_enabled && BLI_rctf_isect_pt_v r_xmax point_local then
    if BLI_rctf_isect_pt_v r_ymin point_local then
      ED_GIZMO_CAGE2D_PART_SCALE_MAX_X_MIN_Y
    else if BLI_rctf_isect_pt_v r_ymax point_local then
      ED_GIZMO_CAGE2D_PART_SCALE_MAX_X_MAX_Y
    else ED_GIZMO_CAGE2D_PART_SCALE_MAX_X
  else if scale_enabled && BLI_rctf_isect_pt_v r_ymin point_local then
    ED_GIZMO_CAGE2D_PART_SCALE_MIN_Y
  else if scale_enabled && BLI_rctf_isect_pt_v r_ymax point_local then
    ED_GIZMO_CAGE2D_PART_SCALE_MAX_Y
  else
  if (if has_flag transform_flag ED_GIZMO_CAGE2D_XFORM_FLAG_ROTATE then
        let r_rotate_pt : float2 :=
          (F32.zero,
           snd size_real + snd margin * GIZMO_MARGIN_OFFSET_SCALE) in
        let r_rotate :=
          {| xmin := fst r_rotate_pt - fst margin / F32.two;
             xmax := fst r_rotate_pt + fst margin / F32.two;
             ymin := snd r_rotate_pt - snd margin / F32.two;
             ymax := snd r_rotate_pt + snd margin / F32.two |} in
        BLI_rctf_isect_pt_v r_rotate point_local
      else false)
  then ED_GIZMO_CAGE2D_PART_ROTATE
  else (-1)%Z
  end.

Definition gizmo_cage2d_setup (gz : wmGizmo) : wmGizmo :=
  set_flag gz (Z.lor (flag gz) (Z.lor WM_GIZMO_DRAW_MODAL WM_GIZMO_DRAW_NO_SCALE)).

(** [MEM_callocN] hands out zeroed memory: the dial starts out null. *)
Definition gizmo_cage2d_invoke (C : bContext) (gz : wmGizmo)
    (event_mval : Z * Z) : Z * wmGizmo :=
  let data :=
    {| orig_matrix_offset := matrix_offset gz;
       orig_matrix_final_no_offset := WM_gizmo_calc_matrix_final_no_offset gz;
       orig_mouse :=
         match gizmo_window_project_2d C gz
                 (F32.of_int (fst event_mval), F32.of_int (snd event_mval))
                 2 false with
         | Some p => p
         | None => (F32.zero, F32.zero)
         end;
       dial := None |} in
  (OPERATOR_RUNNING_MODAL, set_interaction_data gz (Some data)).

Definition gizmo_cage2d_modal (C : bContext) (gz : wmGizmo) : Z :=
  OPERATOR_RUNNING_MODAL.

Definition gizmo_cage2d_property_update (gz : wmGizmo)
    (gz_prop : wmGizmoProperty) : Outcome wmGizmo :=
  match gz_prop_idname gz_prop with
  | None => Crashed
  | Some idname =>
      if String.eqb idname "matrix"%string then
        if (WM_gizmo_target_property_array_length gz gz_prop =? 16)%Z then
          Returned
            (set_matrix_offset gz
               (WM_gizmo_target_property_float_get_array gz gz_prop))
        else Asserted gz
      else Asserted gz
  end.

(** [gizmo_cage2d_exit] hands back the gizmo and the matrix that it wrote
    to the target property through
    [WM_gizmo_target_property_float_set_array], when it wrote one. *)
Definition gizmo_cage2d_exit (C : bContext) (gz : wmGizmo) (cancel : bool)
  : Outcome (wmGizmo * option (wmGizmoProperty * mat4)) :=
  match interaction_data gz with
  | None => Crashed
  | Some data =>
      let data :=
        {| orig_mouse := orig_mouse data;
           orig_matrix_offset := orig_matrix_offset data;
           orig_matrix_final_no_offset := orig_matrix_final_no_offset data;
           dial := None |} in
      let gz := set_interaction_data gz (Some data) in
      if negb cancel then Returned (gz, None)
      else
        let gz_prop := WM_gizmo_target_property_find gz "matrix"%string in
        let written :=
          match gz_prop_idname gz_prop with
          | Some _ => Some (gz_prop, orig_matrix_offset data)
          | None => None
          end in
        Returned (set_matrix_offset gz (orig_matrix_offset data), written)
  end.

(** Target properties updated one after the other while the gizmo is
    dragged; a build without assertions carries on after a failed one. *)
Fixpoint property_updates (props : list wmGizmoProperty) (gz : wmGizmo)
  : option wmGizmo :=
  match props with
  | [] => Some gz
  | gz_prop :: props' =>
      match gizmo_cage2d_property_update gz gz_prop with
      | Returned gz' | Asserted gz' => property_updates props' gz'
      | Crashed => None
      end
  end.

End Gizmo.

(** *** Drawing

    What the drawing functions do is the sequence of calls they make into
    the GPU module.  A vertex attribute is named by the string it was
    registered under with [GPU_vertformat_attr_add] (each function registers
    its attributes first and keeps the identifiers in [pos] and [col]).  A
    vertex read from a slot of [verts] that was never assigned has no
    value. *)

Inductive GPUPrimType : Type :=
| GPU_PRIM_NONE
| GPU_PRIM_LINES
| GPU_PRIM_LINE_STRIP
| GPU_PRIM_LINE_LOOP
| GPU_PRIM_TRI_FAN.

Inductive GPUShader : Type :=
| GPU_SHADER_3D_POLYLINE_UNIFORM_COLOR
| GPU_SHADER_3D_POLYLINE_FLAT_COLOR
| GPU_SHADER_2D_FLAT_COLOR
| GPU_SHADER_2D_UNIFORM_COLOR.

Inductive GPUBlend : Type :=
| GPU_BLEND_NONE
| GPU_BLEND_ALPHA.

Inductive GPUCall : Type :=
| GPU_vertformat_attr_add (name : string) (comp_len : Z)
| immBindBuiltinProgram (shader : GPUShader)
| immUnbindProgram
| immUniformColor3fv (rgb : float3)
| GPU_viewport_size_get_f
| immUniform2fv (name : string)
| immUniform1f (name : string) (value : float)
| immBegin (prim : GPUPrimType) (vertex_len : nat)
| immVertex2f (attr : string) (vx vy : float)
| immVertex2fv (attr : string) (v : option float2)
| immAttr3f (attr : string) (r g b : float)
| immAttr3fv (attr : string) (rgb : float3)
| immEnd
| imm_draw_circle_fill_aspect_2d (attr : string) (cx cy rx ry : float) (n : Z)
| imm_draw_circle_wire_aspect_2d (attr : string) (cx cy rx ry : float) (n : Z)
| GPU_matrix_push
| GPU_matrix_mul (m : mat4)
| GPU_matrix_pop
| GPU_blend (mode : GPUBlend)
| GPU_select_load_id (id : Z).

Definition prim_eqb (a b : GPUPrimType) : bool :=
  match a, b with
  | GPU_PRIM_NONE, GPU_PRIM_NONE
  | GPU_PRIM_LINES, GPU_PRIM_LINES
  | GPU_PRIM_LINE_STRIP, GPU_PRIM_LINE_STRIP
  | GPU_PRIM_LINE_LOOP, GPU_PRIM_LINE_LOOP
  | GPU_PRIM_TRI_FAN, GPU_PRIM_TRI_FAN => true
  | _, _ => false
  end.

(** The first three components of a colour passed where [float[3]] is
    read. *)
Definition rgb (c : float4) : float3 :=
  let '(r, g, b, _) := c in make_float3 r g b.

Definition black : float3 := make_float3 F32.zero F32.zero F32.zero.

(** What a drawing function leaves behind: whether one of its assertions
    failed, and the calls it made (those of a build that compiles
    assertions out). *)
Definition Drawn : Type := (bool * list GPUCall)%type.

Definition drawn (calls : list GPUCall) : Drawn := (false, calls).

Definition has_asserted (a : Drawn) : bool := fst a.
Definition calls_of (a : Drawn) : list GPUCall := snd a.

(** Sequencing of two drawing steps: the calls follow each other, a failed
    assertion of either is kept. *)
Definition then_draw (a b : Drawn) : Drawn :=
  (has_asserted a || has_asserted b, calls_of a ++ calls_of b).

Section Drawing.

Context {T : GizmoTypes} {G : GizmoLib}.

Definition cage2d_draw_box_corners (r : rctf) (margin : float2)
    (color : float3) (line_width : float) : list GPUCall :=
  let pos := "pos"%string in
  [GPU_vertformat_attr_add pos 2;
   immBindBuiltinProgram GPU_SHADER_3D_POLYLINE_UNIFORM_COLOR;
   immUniformColor3fv color;
   GPU_viewport_size_get_f;
   immUniform2fv "viewportSize";
   immUniform1f "lineWidth" (line_width * U_pixelsize);
   immBegin GPU_PRIM_LINES 16;
   immVertex2f pos (xmin r) (ymin r + snd margin);
   immVertex2f pos (xmin r) (ymin r);
   immVertex2f pos (xmin r) (ymin r);
   immVertex2f pos (xmin r + fst margin) (ymin r);
   immVertex2f pos (xmax r) (ymin r + snd margin);
   immVertex2f pos (xmax r) (ymin r);
   immVertex2f pos (xmax r) (ymin r);
   immVertex2f pos (xmax r - fst margin) (ymin r);
   immVertex2f pos (xmax r) (ymax r - snd margin);
   immVertex2f pos (xmax r) (ymax r);
   immVertex2f pos (xmax r) (ymax r);
   immVertex2f pos (xmax r - fst margin) (ymax r);
   immVertex2f pos (xmin r) (ymax r - snd margin);
   immVertex2f pos (xmin r) (ymax r);
   immVertex2f pos (xmin r) (ymax r);
   immVertex2f pos (xmin r + fst margin) (ymax r);
   immEnd;
   immUnbindProgram].

(** The outcome of the [switch] of [cage2d_draw_box_interaction]: the
    slots of [verts] assigned (always the first ones), [verts_len],
    [prim_type], and whether the branch marked unreachable was taken.
    [None] is the [default] case. *)
Record BoxShape : Type := {
  verts : list float2;
  verts_len : nat;
  prim_type : GPUPrimType;
  unreachable : bool
}.

(** The four cases of an edge: two vertices, two more when solid. *)
Definition edge_shape (is_solid : bool) (v0 v1 v2 v3 : float2) : BoxShape :=
  if is_solid then
    {| verts := [v0; v1; v2; v3]; verts_len := 2 + 2;
       prim_type := GPU_PRIM_TRI_FAN; unreachable := false |}
  else
    {| verts := [v0; v1]; verts_len := 2;
       prim_type := GPU_PRIM_LINE_STRIP; unreachable := false |}.

(** The four cases of a corner: three vertices, one more when solid. *)
Definition corner_shape (is_solid : bool) (v0 v1 v2 v3 : float2) : BoxShape :=
  if is_solid then
    {| verts := [v0; v1; v2; v3]; verts_len := 3 + 1;
       prim_type := GPU_PRIM_TRI_FAN; unreachable := false |}
  else
    {| verts := [v0; v1; v2]; verts_len := 3;
       prim_type := GPU_PRIM_LINE_STRIP; unreachable := false |}.

Definition box_interaction_shape (highlighted : Z) (size margin : float2)
    (is_solid : bool) (draw_options : Z) : option BoxShape :=
  if (highlighted =? ED_GIZMO_CAGE2D_PART_SCALE_MIN_X)%Z then
    let r := {| xmin := - fst size;
                xmax := - fst size + fst margin;
                ymin := - snd size + snd margin;
                ymax := snd size - snd margin |} in
    Some (edge_shape is_solid
            (xmin r, ymin r) (xmin r, ymax r)
            (xmax r, ymax r) (xmax r, ymin r))
  else if (highlighted =? ED_GIZMO_CAGE2D_PART_SCALE_MAX_X)%Z then
    let r := {| xmin := fst size - fst margin;
                xmax := fst size;
                ymin := - snd size + snd margin;
                ymax := snd size - snd margin |} in
    Some (edge_shape is_solid
            (xmax r, ymin r) (xmax r, ymax r)
            (xmin r, ymax r) (xmin r, ymin r))
  else if (highlighted =? ED_GIZMO_CAGE2D_PART_SCALE_MIN_Y)%Z then
    let r := {| xmin := - fst size + fst margin;
                xmax := fst size - fst margin;
                ymin := - snd size;
                ymax := - snd size + snd margin |} in
    Some (edge_shape is_solid
            (xmin r, ymin r) (xmax r, ymin r)
            (xmax r, ymax r) (xmin r, ymax r))
  else if (highlighted =? ED_GIZMO_CAGE2D_PART_SCALE_MAX_Y)%Z then
    let r := {| xmin := - fst size + fst margin;
                xmax := fst size - fst margin;
                ymin := snd size - snd margin;
                ymax := snd size |} in
    Some (edge_shape is_solid
            (xmin r, ymax r) (xmax r, ymax r)
            (xmax r, ymin r) (xmin r, ymin r))
  else if (highlighted =? ED_GIZMO_CAGE2D_PART_SCALE_MIN_X_MIN_Y)%Z then
    let r := {| xmin := - fst size;
                xmax := - fst size + fst margin;
                ymin := - snd size;
                ymax := - snd size + snd margin |} in
    Some (corner_shape is_solid
            (xmax r, ymin r) (xmax r, ymax r)
            (xmin r, ymax r) (xmin r, ymin r))
  else if (highlighted =? ED_GIZMO_CAGE2D_PART_SCALE_MIN_X_MAX_Y)%Z then
    let r := {| xmin := - fst size;
                xmax := - fst size + fst margin;
                ymin := snd size - snd margin;
                ymax := snd size |} in
    Some (corner_shape is_solid
            (xmax r, ymax r) (xmax r, ymin r)
            (xmin r, ymin r) (xmin r, ymax r))
  else if (highlighted =? ED_GIZMO_CAGE2D_PART_SCALE_MAX_X_MIN_Y)%Z then
    let r := {| xmin := fst size - fst margin;
                xmax := fst size;
                ymin := - snd size;
                ymax := - snd size + snd margin |} in
    Some (corner_shape is_solid
            (xmin r, ymin r) (xmin r, ymax r)
            (xmax r, ymax r) (xmax r, ymin r))
  else if (highlighted =? ED_GIZMO_CAGE2D_PART_SCALE_MAX_X_MAX_Y)%Z then
    let r := {| xmin := fst size - fst margin;
                xmax := fst size;
                ymin := snd size - snd margin;
                ymax := snd size |} in
    Some (corner_shape is_solid
            (xmin r, ymax r) (xmin r, ymin r)
            (xmax r, ymin r) (xmax r, ymax r))
  else if (highlighted =? ED_GIZMO_CAGE2D_PART_ROTATE)%Z then
    let rotate_pt : float2 := (F32.zero, snd size + snd margin) in
    let r_rotate :=
      {| xmin := fst rotate_pt - fst margin / F32.two;
         xmax := fst rotate_pt + fst margin / F32.two;
         ymin := snd rotate_pt - snd margin / F32.two;
         ymax := snd rotate_pt + snd margin / F32.two |} in
    Some {| verts := [(xmin r_rotate, ymin r_rotate);
                      (xmin r_rotate, ymax r_rotate);
                      (xmax r_rotate, ymax r_rotate);
                      (xmax r_rotate, ymin r_rotate)];
            verts_len := 4;
            prim_type :=
              if is_solid then GPU_PRIM_TRI_FAN else GPU_PRIM_LINE_STRIP;
            unreachable := false |}
  else if (highlighted =? ED_GIZMO_CAGE2D_PART_TRANSLATE)%Z then
    if has_flag draw_options ED_GIZMO_CAGE2D_DRAW_FLAG_XFORM_CENTER_HANDLE
    then
      Some {| verts := [(- fst margin / F32.two, - snd margin / F32.two);
                        (fst margin / F32.two, snd margin / F32.two);
                        (- fst margin / F32.two, snd margin / F32.two);
                        (fst margin / F32.two, - snd margin / F32.two)];
              verts_len := 4;
              prim_type :=
                if is_solid then GPU_PRIM_TRI_FAN else GPU_PRIM_LINES;
              unreachable := false |}
    else
      Some {| verts := [(- fst size, - snd size);
                        (- fst size, snd size);
                        (fst size, snd size);
                        (fst size, - snd size)];
              verts_len := 4;
              prim_type :=
                if is_solid then GPU_PRIM_TRI_FAN else GPU_PRIM_LINE_STRIP;
              unreachable := negb is_solid |}
  else None.

(** The loop [for (i = 0; i < verts_len; i++) immVertex2fv(pos, verts[i])]. *)
Definition emit_verts (attr : string) (vs : list float2) (len : nat)
  : list GPUCall :=
  map (fun i => immVertex2fv attr (nth_error vs i)) (seq 0 len).

(** The three assertions of [cage2d_draw_box_interaction] and the one of
    the branch marked unreachable: whether any of them fails. *)
Definition box_interaction_asserted (shape : BoxShape) (is_solid : bool)
  : bool :=
  let prim := prim_type shape in
  unreachable shape
  || prim_eqb prim GPU_PRIM_NONE
  || (if is_solid then negb (prim_eqb prim GPU_PRIM_TRI_FAN)
      else negb (prim_eqb prim GPU_PRIM_LINE_STRIP
                 || prim_eqb prim GPU_PRIM_LINES)).

(** The calls made after the [switch]. *)
Definition box_interaction_calls (color : float4) (shape : BoxShape)
    (line_width : float) (is_solid : bool) : list GPUCall :=
  let pos := "pos"%string in
  let col := "color"%string in
  let prim := prim_type shape in
  [GPU_vertformat_attr_add pos 2;
   GPU_vertformat_attr_add col 3;
   immBindBuiltinProgram
     (if is_solid then GPU_SHADER_2D_FLAT_COLOR
      else GPU_SHADER_3D_POLYLINE_FLAT_COLOR)]
  ++ (if is_solid then
        [immBegin prim (verts_len shape);
         immAttr3f col F32.zero F32.zero F32.zero]
        ++ emit_verts pos (verts shape) (verts_len shape)
        ++ [immEnd]
      else
        [GPU_viewport_size_get_f;
         immUniform2fv "viewportSize";
         immUniform1f "lineWidth"
           ((line_width * F32More.three) * U_pixelsize);
         immBegin prim (verts_len shape);
         immAttr3f col F32.zero F32.zero F32.zero]
        ++ emit_verts pos (verts shape) (verts_len shape)
        ++ [immEnd;
            immUniform1f "lineWidth" (line_width * U_pixelsize);
            immBegin prim (verts_len shape);
            immAttr3fv col (rgb color)]
        ++ emit_verts pos (verts shape) (verts_len shape)
        ++ [immEnd])
  ++ [immUnbindProgram].

Definition cage2d_draw_box_interaction (color : float4) (highlighted : Z)
    (size margin : float2) (line_width : float) (is_solid : bool)
    (draw_options : Z) : Drawn :=
  match box_interaction_shape highlighted size margin is_solid draw_options with
  | None => drawn []
  | Some shape =>
      (box_interaction_asserted shape is_solid,
       box_interaction_calls color shape line_width is_solid)
  end.

Definition imm_draw_point_aspect_2d (pos : string)
    (px py rad_x rad_y : float) (solid : bool) : list GPUCall :=
  [immBegin (if solid then GPU_PRIM_TRI_FAN else GPU_PRIM_LINE_LOOP) 4;
   immVertex2f pos (px - rad_x) (py - rad_y);
   immVertex2f pos (px - rad_x) (py + rad_y);
   immVertex2f pos (px + rad_x) (py + rad_y);
   immVertex2f pos (px + rad_x) (py - rad_y);
   immEnd].

Definition cage2d_draw_circle_wire (r : rctf) (margin : float2)
    (color : float3) (transform_flag draw_options : Z) (line_width : float)
  : list GPUCall :=
  let pos := "pos"%string in
  [GPU_vertformat_attr_add pos 2;
   immBindBuiltinProgram GPU_SHADER_3D_POLYLINE_UNIFORM_COLOR;
   immUniformColor3fv color;
   GPU_viewport_size_get_f;
   immUniform2fv "viewportSize";
   immUniform1f "lineWidth" (line_width * U_pixelsize);
   immBegin GPU_PRIM_LINE_LOOP 4;
   immVertex2f pos (xmin r) (ymin r);
   immVertex2f pos (xmax r) (ymin r);
   immVertex2f pos (xmax r) (ymax r);
   immVertex2f pos (xmin r) (ymax r);
   immEnd]
  ++ (if has_flag transform_flag ED_GIZMO_CAGE2D_XFORM_FLAG_ROTATE then
        [immBegin GPU_PRIM_LINE_LOOP 2;
         immVertex2f pos (BLI_rctf_cent_x r) (ymax r);
         immVertex2f pos (BLI_rctf_cent_x r) (ymax r + snd margin);
         immEnd]
      else [])
  ++ (if has_flag transform_flag ED_GIZMO_CAGE2D_XFORM_FLAG_TRANSLATE then
        if has_flag draw_options
             ED_GIZMO_CAGE2D_DRAW_FLAG_XFORM_CENTER_HANDLE then
          let rad : float2 := (fst margin / F32.two, snd margin / F32.two) in
          let center : float2 := (BLI_rctf_cent_x r, BLI_rctf_cent_y r) in
          [immBegin GPU_PRIM_LINES 4;
           immVertex2f pos (fst center - fst rad) (snd center - snd rad);
           immVertex2f pos (fst center + fst rad) (snd center + snd rad);
           immVertex2f pos (fst center + fst rad) (snd center - snd rad);
           immVertex2f pos (fst center - fst rad) (snd center + snd rad);
           immEnd]
        else []
      else [])
  ++ [immUnbindProgram].

Definition cage2d_draw_circle_handles (r : rctf) (margin : float2)
    (color : float3) (transform_flag : Z) (solid : bool) : list GPUCall :=
  let pos := "pos"%string in
  let circle_fn :=
    if solid then imm_draw_circle_fill_aspect_2d
    else imm_draw_circle_wire_aspect_2d in
  let resolu := 12%Z in
  let rad : float2 :=
    (fst margin / F32More.three, snd margin / F32More.three) in
  [GPU_vertformat_attr_add pos 2;
   immBindBuiltinProgram GPU_SHADER_2D_UNIFORM_COLOR;
   immUniformColor3fv color]
  ++ imm_draw_point_aspect_2d pos (xmin r) (ymin r) (fst rad) (snd rad) solid
  ++ imm_draw_point_aspect_2d pos (xmax r) (ymin r) (fst rad) (snd rad) solid
  ++ imm_draw_point_aspect_2d pos (xmax r) (ymax r) (fst rad) (snd rad) solid
  ++ imm_draw_point_aspect_2d pos (xmin r) (ymax r) (fst rad) (snd rad) solid
  ++ (if has_flag transform_flag ED_GIZMO_CAGE2D_XFORM_FLAG_ROTATE then
        let handle : float2 :=
          (BLI_rctf_cent_x r,
           ymax r + snd margin * GIZMO_MARGIN_OFFSET_SCALE) in
        [circle_fn pos (fst handle) (snd handle) (fst rad) (snd rad) resolu]
      else [])
  ++ [immUnbindProgram].

(** The block under [if (false)] is left out. *)
Definition gizmo_cage2d_draw_intern (gz : wmGizmo) (select highlight : bool)
    (select_id : Z) : Drawn :=
  let dims := dimensions gz in
  let transform_flag := transform gz in
  let draw_style := draw_style gz in
  let draw_options := draw_options gz in
  let size_real : float2 := (fst dims / F32.two, snd dims / F32.two) in
  let matrix_final := WM_gizmo_calc_matrix_final gz in
  let margin := snd (gizmo_calc_rect_view_margin gz dims) in
  let body : Drawn :=
    if select then
      let size : float2 :=
        (fst size_real + fst margin / F32.two,
         snd size_real + snd margin / F32.two) in
      then_draw
        (if has_flag transform_flag ED_GIZMO_CAGE2D_XFORM_FLAG_SCALE then
           fold_left
             (fun acc part =>
                then_draw acc
                  (then_draw
                     (drawn [GPU_select_load_id (Z.lor select_id part)])
                     (cage2d_draw_box_interaction (color gz) part size margin
                        (line_width gz) true draw_options)))
             scale_parts (drawn [])
         else drawn [])
      (then_draw
        (if has_flag transform_flag ED_GIZMO_CAGE2D_XFORM_FLAG_TRANSLATE then
           let transform_part := ED_GIZMO_CAGE2D_PART_TRANSLATE in
           then_draw
             (drawn [GPU_select_load_id (Z.lor select_id transform_part)])
             (cage2d_draw_box_interaction (color gz) transform_part size
                margin (line_width gz) true draw_options)
         else drawn [])
        (if has_flag transform_flag ED_GIZMO_CAGE2D_XFORM_FLAG_ROTATE then
           cage2d_draw_box_interaction (color gz)
             ED_GIZMO_CAGE2D_PART_ROTATE size_real margin (line_width gz)
             true draw_options
         else drawn []))
    else
      let r := {| xmin := - fst size_real; ymin := - snd size_real;
                  xmax := fst size_real; ymax := snd size_real |} in
      if (draw_style =? ED_GIZMO_CAGE2D_STYLE_BOX)%Z then
        let color4 := gizmo_color_get gz highlight in
        let show :=
          if (highlight_part gz =? ED_GIZMO_CAGE2D_PART_TRANSLATE)%Z then
            if has_flag draw_options
                 ED_GIZMO_CAGE2D_DRAW_FLAG_XFORM_CENTER_HANDLE
            then true else false
          else true in
        then_draw
          (drawn
             (cage2d_draw_box_corners r margin black
                (line_width gz + F32More.three)
              ++ cage2d_draw_box_corners r margin (rgb color4)
                   (line_width gz)))
        (then_draw
          (if show then
             cage2d_draw_box_interaction (color gz) (highlight_part gz)
               size_real margin (line_width gz) false draw_options
           else drawn [])
          (if has_flag transform_flag ED_GIZMO_CAGE2D_XFORM_FLAG_ROTATE then
             cage2d_draw_box_interaction (color gz)
               ED_GIZMO_CAGE2D_PART_ROTATE size_real margin (line_width gz)
               false draw_options
           else drawn []))
      else if (draw_style =? ED_GIZMO_CAGE2D_STYLE_CIRCLE)%Z then
        let color4 := gizmo_color_get gz highlight in
        let outline_line_width := line_width gz + F32More.three in
        drawn
          ([GPU_blend GPU_BLEND_ALPHA]
           ++ cage2d_draw_circle_wire r margin black transform_flag
                draw_options outline_line_width
           ++ cage2d_draw_circle_wire r margin (rgb color4) transform_flag
                draw_options (line_width gz)
           ++ cage2d_draw_circle_handles r margin (rgb color4)
                transform_flag true
           ++ cage2d_draw_circle_handles r margin black transform_flag false
           ++ [GPU_blend GPU_BLEND_NONE])
      else (true, []) in
  then_draw (drawn [GPU_matrix_push; GPU_matrix_mul matrix_final])
    (then_draw body (drawn [GPU_matrix_pop])).

Definition gizmo_cage2d_draw_select (gz : wmGizmo) (select_id : Z)
  : Drawn :=
  gizmo_cage2d_draw_intern gz true false select_id.

Definition gizmo_cage2d_draw (gz : wmGizmo) : Drawn :=
  let is_highlight := has_flag (state gz) WM_GIZMO_STATE_HIGHLIGHT in
  gizmo_cage2d_draw_intern gz false is_highlight (-1).

End Drawing.

(** *** The discipline of the immediate mode

    A checker for a sequence of calls: a program is bound before anything
    is drawn and unbound when the function is done; every [immBegin] with
    [n] vertices is closed by [immEnd] after exactly [n] vertices, each
    with a value; attributes are set inside a block only, uniforms and
    ready-made shapes outside; and [GPU_matrix_pop] undoes a
    [GPU_matrix_push]. *)

Record ImmState : Type := {
  bound : bool;
  open_block : option nat;
  matrix_depth : nat
}.

Definition imm_idle : ImmState :=
  {| bound := false; open_block := None; matrix_depth := 0 |}.

Definition imm_step (st : ImmState) (c : GPUCall) : option ImmState :=
  let outside := match open_block st with None => true | Some _ => false end in
  match c with
  | GPU_vertformat_attr_add _ _ =>
      if outside && negb (bound st) then Some st else None
  | immBindBuiltinProgram _ =>
      if outside && negb (bound st) then
        Some {| bound := true; open_block := None;
                matrix_depth := matrix_depth st |}
      else None
  | immUnbindProgram =>
      if outside && bound st then
        Some {| bound := false; open_block := None;
                matrix_depth := matrix_depth st |}
      else None
  | immUniformColor3fv _ | immUniform2fv _ | immUniform1f _ _
  | imm_draw_circle_fill_aspect_2d _ _ _ _ _ _
  | imm_draw_circle_wire_aspect_2d _ _ _ _ _ _ =>
      if outside && bound st then Some st else None
  | immBegin _ n =>
      if outside && bound st then
        Some {| bound := true; open_block := Some n;
                matrix_depth := matrix_depth st |}
      else None
  | immVertex2f _ _ _ | immVertex2fv _ (Some _) =>
      match open_block st with
      | Some (S k) =>
          Some {| bound := bound st; open_block := Some k;
                  matrix_depth := matrix_depth st |}
      | _ => None
      end
  | immVertex2fv _ None => None
  | immAttr3f _ _ _ _ | immAttr3fv _ _ =>
      match open_block st with
      | Some (S _) => Some st
      | _ => None
      end
  | immEnd =>
      match open_block st with
      | Some O =>
          Some {| bound := bound st; open_block := None;
                  matrix_depth := matrix_depth st |}
      | _ => None
      end
  | GPU_matrix_push =>
      if outside then
        Some {| bound := bound st; open_block := None;
                matrix_depth := S (matrix_depth st) |}
      else None
  | GPU_matrix_pop =>
      match outside, matrix_depth st with
      | true, S d =>
          Some {| bound := bound st; open_block := None; matrix_depth := d |}
      | _, _ => None
      end
  | GPU_viewport_size_get_f | GPU_matrix_mul _ | GPU_blend _
  | GPU_select_load_id _ =>
      if outside then Some st else None
  end.

Fixpoint imm_run (st : ImmState) (calls : list GPUCall) : option ImmState :=
  match calls with
  | [] => Some st
  | c :: calls' =>
      match imm_step st c with
      | Some st' => imm_run st' calls'
      | None => None
      end
  end.

(** Nothing bound, no block open, [d] matrices pushed. *)
Definition idle_at (d : nat) : ImmState :=
  {| bound := false; open_block := None; matrix_depth := d |}.

(** The blocks opened by the calls and the selection identifiers loaded,
    in order. *)
Definition blocks (calls : list GPUCall) : list (GPUPrimType * nat) :=
  flat_map (fun c => match c with immBegin p n => [(p, n)] | _ => [] end)
           calls.

Definition loaded_ids (calls : list GPUCall) : list Z :=
  flat_map (fun c => match c with GPU_select_load_id i => [i] | _ => [] end)
           calls.

(** Calls that can be made wherever nothing is bound and no block is open,
    and that leave things so. *)
Definition clean (calls : list GPUCall) : Prop :=
  forall d, imm_run (idle_at d) calls = Some (idle_at d).

End Cage2d.

(** ** A concrete window manager for the gizmo

    One instance of the two interfaces, on which the statements about the
    gizmo are exercised: point-in-rectangle with closed borders, the upper
    3x3 block of a matrix applied to a vector, the Euclidean length, an
    identity view and a projection that hands the mouse position back.  The
    enumerators are numbered from zero and the flags are distinct bits,
    chosen for this instance. *)

Module Cage2dReference.

Import String.
Import Cage2d.

Local Open Scope f32_scope.

Definition types : GizmoTypes :=
  {| bContext := unit; wmGizmoRest := unit; wmGizmoProperty := string;
     Dial := unit |}.

#[local] Existing Instance types.

Definition isect_pt_v (r : rctf) (xy : float2) : bool :=
  if fst xy <? xmin r then false
  else if fst xy >? xmax r then false
  else if snd xy <? ymin r then false
  else if snd xy >? ymax r then false
  else true.

Definition cent_x (r : rctf) : float := (xmin r + xmax r) / F32.two.
Definition cent_y (r : rctf) : float := (ymin r + ymax r) / F32.two.

Definition unit_row (i : nat) : float4 :=
  match i with
  | 0%nat => (F32.one, F32.zero, F32.zero, F32.zero)
  | 1%nat => (F32.zero, F32.one, F32.zero, F32.zero)
  | 2%nat => (F32.zero, F32.zero, F32.one, F32.zero)
  | _ => (F32.zero, F32.zero, F32.zero, F32.one)
  end.

Definition unit_m4 : mat4 := (unit_row 0, unit_row 1, unit_row 2, unit_row 3).

Definition mat3_apply (m : mat4) (v : float3) : float3 :=
  let '(r0, r1, r2, _) := m in
  let a := row_v3 r0 in
  let b := row_v3 r1 in
  let c := row_v3 r2 in
  make_float3 (x v * x a + y v * x b + x c * z v)
              (x v * y a + y v * y b + y c * z v)
              (x v * z a + y v * z b + z c * z v).

Definition scale_v2 (r : float3) (a : float2) : float3 :=
  make_float3 (x r * fst a) (y r * snd a) (z r).

Definition length_v3 (a : float3) : float :=
  Reference.sqrtf (Reference.dot3 a a).

Definition lib : @GizmoLib types := {|
  ED_GIZMO_CAGE2D_PART_TRANSLATE := 0;
  ED_GIZMO_CAGE2D_PART_SCALE_MIN_X := 1;
  ED_GIZMO_CAGE2D_PART_SCALE_MAX_X := 2;
  ED_GIZMO_CAGE2D_PART_SCALE_MIN_Y := 3;
  ED_GIZMO_CAGE2D_PART_SCALE_MAX_Y := 4;
  ED_GIZMO_CAGE2D_PART_SCALE_MIN_X_MIN_Y := 5;
  ED_GIZMO_CAGE2D_PART_SCALE_MIN_X_MAX_Y := 6;
  ED_GIZMO_CAGE2D_PART_SCALE_MAX_X_MIN_Y := 7;
  ED_GIZMO_CAGE2D_PART_SCALE_MAX_X_MAX_Y := 8;
  ED_GIZMO_CAGE2D_PART_ROTATE := 9;
  ED_GIZMO_CAGE2D_XFORM_FLAG_TRANSLATE := 1;
  ED_GIZMO_CAGE2D_XFORM_FLAG_ROTATE := 2;
  ED_GIZMO_CAGE2D_XFORM_FLAG_SCALE := 4;
  ED_GIZMO_CAGE2D_XFORM_FLAG_SCALE_UNIFORM := 8;
  ED_GIZMO_CAGE2D_DRAW_FLAG_XFORM_CENTER_HANDLE := 1;
  ED_GIZMO_CAGE2D_STYLE_BOX := 0;
  ED_GIZMO_CAGE2D_STYLE_CIRCLE := 1;
  WM_CURSOR_DEFAULT := 1;
  WM_CURSOR_NSEW_SCROLL := 2;
  WM_CURSOR_CROSS := 3;
  WM_GIZMOGROUPTYPE_3D := 1;
  WM_GIZMO_DRAW_MODAL := 4;
  WM_GIZMO_DRAW_NO_SCALE := 16;
  WM_GIZMO_STATE_HIGHLIGHT := 1;
  OPERATOR_RUNNING_MODAL := 1;
  BLI_rctf_isect_pt_v := isect_pt_v;
  BLI_rctf_cent_x := cent_x;
  BLI_rctf_cent_y := cent_y;
  WM_gizmo_calc_matrix_final := fun gz => matrix_offset gz;
  WM_gizmo_calc_matrix_final_no_offset := fun _ => unit_m4;
  mul_v3_mat3_m4v3 := mat3_apply;
  mul_v2_v2 := scale_v2;
  len_v3 := length_v3;
  gizmo_window_project_2d := fun _ _ co _ _ => Some co;
  gizmo_color_get := fun gz _ => color gz;
  WM_gizmo_target_property_find :=
    fun (_ : @wmGizmo types) (name : string) => name : @wmGizmoProperty types;
  gz_prop_idname := fun name : @wmGizmoProperty types => Some (name : string);
  WM_gizmo_target_property_array_length := fun _ _ => 16%Z;
  WM_gizmo_target_property_float_get_array := fun _ _ => unit_m4;
  U_pixelsize := F32.one
|}.

(** A cage of 200 by 100 units drawn at scale 100: the margin is 30 units
    along X and 15 along Y. *)
Definition cage (flags options part : Z) : @wmGizmo types :=
  {| dimensions := (F32.of_int 200, F32.of_int 100);
     transform := flags;
     draw_style := 0;
     draw_options := options;
     matrix_offset := unit_m4;
     scale_final := F32.of_int 100;
     color := (F32.one, F32.one, F32.one, F32.one);
     line_width := F32.one;
     highlight_part := part;
     state := 0;
     flag := 0;
     parent_gzgroup_type_flag := 0;
     interaction_data := None;
     rest := tt |}.

(** The same cage behind a view that flattens it: the offset matrix is
    zero. *)
Definition zero_m4 : mat4 :=
  let r := (F32.zero, F32.zero, F32.zero, F32.zero) in (r, r, r, r).

Definition flat_cage (flags : Z) : @wmGizmo types :=
  set_matrix_offset (cage flags 1 (-1)) zero_m4.

(** A drag that updates the offset matrix once and is then cancelled. *)
Definition dragged_props : list string := ["matrix"; "other"]%string.

Definition dragged_cage : @wmGizmo types :=
  match @property_updates types lib dragged_props
          (snd (@gizmo_cage2d_invoke types lib tt (flat_cage 15) (3, 4)%Z))
  with
  | Some gz => gz
  | None => flat_cage 15
  end.

End Cage2dReference.

(** ** Comparisons against zero *)

Section ZeroComparisons.

Local Open Scope f32_scope.

Lemma gtb_zero_leb_false (d : float) :
  (d >? F32.zero) = true -> (d <=? F32.zero) = false.
Proof.
  destruct d as [s | s | | s m e]; try destruct s; cbn; congruence.
Qed.

Lemma leb_zero_gtb_false (d : float) :
  (d <=? F32.zero) = true -> (d >? F32.zero) = false.
Proof.
  destruct d as [s | s | | s m e]; try destruct s; cbn; congruence.
Qed.

Lemma gtb_zero_fmaxf (d : float) :
  (d >? F32.zero) = true -> F32.fmaxf d F32.zero = d.
Proof.
  destruct d as [s | s | | s m e]; try destruct s; cbn; congruence.
Qed.

Lemma number_gtb_or_leb (d : float) :
  F32.is_nan d = false -> (d >? F32.zero) = true \/ (d <=? F32.zero) = true.
Proof.
  destruct d as [s | s | | s m e]; try destruct s; cbn; auto; congruence.
Qed.

End ZeroComparisons.

(** ** Properties of the closure *)

Section ClosureFacts.

Context {K : KernelUtil}.

Local Open Scope f32_scope.

(** On a direction above the surface the contribution is the replicated
    value of the formula; the density handed in comes back untouched. *)
Lemma calculate_above (bsdf : PrincipledDiffuseBsdf) (N V L : float3) (p : float) :
  (dot N L >? F32.zero) = true ->
  calculate_principled_diffuse_brdf bsdf N V L p =
  (replicate3 (principled_diffuse_value (roughness bsdf)
                 (dot N L) (dot N V) (dot L V)), p).
Proof.
  intros Habove. unfold calculate_principled_diffuse_brdf.
  rewrite (gtb_zero_leb_false _ Habove). reflexivity.
Qed.

Lemma calculate_below (bsdf : PrincipledDiffuseBsdf) (N V L : float3) (p : float) :
  (dot N L <=? F32.zero) = true ->
  calculate_principled_diffuse_brdf bsdf N V L p = (float3_zero, p).
Proof.
  intros Hbelow. unfold calculate_principled_diffuse_brdf.
  rewrite Hbelow. reflexivity.
Qed.

Lemma calculate_keeps_pdf (bsdf : PrincipledDiffuseBsdf) (N V L : float3) (p : float) :
  snd (calculate_principled_diffuse_brdf bsdf N V L p) = p.
Proof.
  unfold calculate_principled_diffuse_brdf.
  destruct (dot N L <=? F32.zero); reflexivity.
Qed.

Lemma eval_reflect_above (sc : ShaderClosure) (I w : float3) (p : float) :
  (dot (closure_N sc) w >? F32.zero) = true ->
  bsdf_principled_diffuse_eval_reflect sc I w p =
  calculate_principled_diffuse_brdf sc (closure_N sc) I w
    (dot (closure_N sc) w * M_1_PI_F).
Proof.
  intros Habove. unfold bsdf_principled_diffuse_eval_reflect.
  rewrite Habove, (gtb_zero_fmaxf _ Habove). reflexivity.
Qed.

Lemma eval_reflect_not_above (sc : ShaderClosure) (I w : float3) (p : float) :
  (dot (closure_N sc) w >? F32.zero) = false ->
  bsdf_principled_diffuse_eval_reflect sc I w p = (float3_zero, F32.zero).
Proof.
  intros Hnot. unfold bsdf_principled_diffuse_eval_reflect.
  rewrite Hnot. reflexivity.
Qed.

(** The two shapes of the result of [bsdf_principled_diffuse_sample]. *)
Lemma sample_rejected
    (sc : ShaderClosure) (Ng I dIdx dIdy : float3) (randu randv : float)
    (out : SampleOut) :
  (dot Ng (fst (sample_cos_hemisphere (closure_N sc) randu randv)) >? F32.zero)
    = false ->
  bsdf_principled_diffuse_sample sc Ng I dIdx dIdy randu randv out =
  (Z.lor LABEL_REFLECT LABEL_DIFFUSE,
   {| eval := eval out;
      omega_in := fst (sample_cos_hemisphere (closure_N sc) randu randv);
      domega_in_dx := domega_in_dx out;
      domega_in_dy := domega_in_dy out;
      pdf := F32.zero |}).
Proof.
  unfold bsdf_principled_diffuse_sample.
  destruct (sample_cos_hemisphere (closure_N sc) randu randv) as [w p].
  cbn [fst omega_in]. intros Hnot. rewrite Hnot. reflexivity.
Qed.

Lemma sample_accepted
    (sc : ShaderClosure) (Ng I dIdx dIdy : float3) (randu randv : float)
    (out : SampleOut) :
  let w := fst (sample_cos_hemisphere (closure_N sc) randu randv) in
  (dot Ng w >? F32.zero) = true ->
  let r := snd (bsdf_principled_diffuse_sample sc Ng I dIdx dIdy randu randv out) in
  omega_in r = w /\
  eval r = fst (calculate_principled_diffuse_brdf sc (closure_N sc) I w
                  (snd (sample_cos_hemisphere (closure_N sc) randu randv))).
Proof.
  unfold bsdf_principled_diffuse_sample.
  destruct (sample_cos_hemisphere (closure_N sc) randu randv) as [w p].
  cbn [fst snd omega_in pdf]. intros Hok. rewrite Hok.
  destruct (calculate_principled_diffuse_brdf sc (closure_N sc) I w p) as [e p'].
  destruct RAY_DIFFERENTIALS; cbn; auto.
Qed.

Lemma sample_label
    (sc : ShaderClosure) (Ng I dIdx dIdy : float3) (randu randv : float)
    (out : SampleOut) :
  fst (bsdf_principled_diffuse_sample sc Ng I dIdx dIdy randu randv out) =
  Z.lor LABEL_REFLECT LABEL_DIFFUSE.
Proof.
  unfold bsdf_principled_diffuse_sample.
  destruct (sample_cos_hemisphere (closure_N sc) randu randv) as [w p].
  reflexivity.
Qed.

End ClosureFacts.

(** ** The evaluation and sampling contract *)

Section Contract.

Context {K : KernelUtil}.

Local Open Scope f32_scope.

(** C1: whatever the roughness, the shading normal [N] and the directions
    [V] and [L], as soon as [dot N L > 0] the contribution computed by
    [calculate_principled_diffuse_brdf], and with it the contribution of
    [bsdf_principled_diffuse_eval_reflect] on a closure of normal [N], is
    [(1/pi) . NdotL . (1 - FL + Fd90.FL) . (1 - FV + Fd90.FV)] with
    [Fd90 = 0.5 + (dot L V + 1) . roughness], the same scalar in the three
    channels. *)
Theorem principled_diffuse_brdf_formula
    (tag : Z) (Nc : float3) (rough : float) (N V L : float3) (p : float) :
  (dot N L >? F32.zero) = true ->
  let value :=
    principled_diffuse_value rough (dot N L) (dot N V) (dot L V) in
  fst (calculate_principled_diffuse_brdf
         {| closure_type := tag; closure_N := Nc; roughness := rough |}
         N V L p)
  = make_float3 value value value
  /\ fst (bsdf_principled_diffuse_eval_reflect
            {| closure_type := tag; closure_N := N; roughness := rough |}
            V L p)
     = make_float3 value value value.
Proof.
  intros Habove value. split.
  - rewrite calculate_above by exact Habove. reflexivity.
  - rewrite eval_reflect_above by exact Habove.
    cbn [closure_N]. rewrite calculate_above by exact Habove. reflexivity.
Qed.

(** C2: when [dot normal incoming <= 0],
    [bsdf_principled_diffuse_eval_reflect] returns the zero contribution in
    every channel together with a zero pdf; it is an ordinary result of the
    function. *)
Theorem eval_reflect_wrong_side_zero
    (sc : ShaderClosure) (I w : float3) (p : float) :
  (dot (closure_N sc) w <=? F32.zero) = true ->
  bsdf_principled_diffuse_eval_reflect sc I w p
  = (make_float3 F32.zero F32.zero F32.zero, F32.zero).
Proof.
  intros Hbelow. apply eval_reflect_not_above.
  apply leb_zero_gtb_false, Hbelow.
Qed.

(** C3: when the direction drawn by [sample_cos_hemisphere] has
    [dot Ng incoming <= 0], [bsdf_principled_diffuse_sample] hands back
    [pdf = 0]. *)
Theorem sample_below_geometric_normal_zero_pdf
    (sc : ShaderClosure) (Ng I dIdx dIdy : float3) (randu randv : float)
    (out : SampleOut) :
  (dot Ng (fst (sample_cos_hemisphere (closure_N sc) randu randv))
     <=? F32.zero) = true ->
  pdf (snd (bsdf_principled_diffuse_sample sc Ng I dIdx dIdy randu randv out))
  = F32.zero.
Proof.
  intros Hbelow. rewrite sample_rejected.
  - reflexivity.
  - apply leb_zero_gtb_false, Hbelow.
Qed.

(** C4, as amended: when [bsdf_principled_diffuse_sample] draws a direction
    above the geometric normal and the cosine between the shading normal
    and that direction is a number, evaluating
    [bsdf_principled_diffuse_eval_reflect] with the same outgoing direction
    and the drawn direction gives the contribution that the sampling call
    stored in [eval], for every roughness.  Without the condition on the
    cosine the two paths differ: on a NaN the test [NdotL <= 0] of
    [calculate_principled_diffuse_brdf] and the test [dot(N, omega_in) > 0]
    of the evaluation both fail. *)
Theorem sample_then_eval_reflect_agree
    (sc : ShaderClosure) (Ng I dIdx dIdy : float3) (randu randv : float)
    (out : SampleOut) (p : float) :
  let r := snd (bsdf_principled_diffuse_sample sc Ng I dIdx dIdy randu randv out) in
  (dot Ng (omega_in r) >? F32.zero) = true ->
  F32.is_nan (dot (closure_N sc) (omega_in r)) = false ->
  fst (bsdf_principled_diffuse_eval_reflect sc I (omega_in r) p) = eval r.
Proof.
  intros r Hvalid Hnum.
  assert (Hw : omega_in r
               = fst (sample_cos_hemisphere (closure_N sc) randu randv)).
  { subst r. unfold bsdf_principled_diffuse_sample.
    destruct (sample_cos_hemisphere (closure_N sc) randu randv) as [w q].
    cbn [fst omega_in pdf].
    destruct (dot Ng w >? F32.zero); [|reflexivity].
    destruct (calculate_principled_diffuse_brdf sc (closure_N sc) I w q).
    destruct RAY_DIFFERENTIALS; reflexivity. }
  rewrite Hw in Hvalid.
  destruct (sample_accepted sc Ng I dIdx dIdy randu randv out Hvalid)
    as [_ Heval].
  fold r in Heval. rewrite Heval, <- Hw.
  destruct (number_gtb_or_leb _ Hnum) as [Habove | Hbelow].
  - rewrite eval_reflect_above by exact Habove.
    rewrite !calculate_above by exact Habove. reflexivity.
  - rewrite eval_reflect_not_above by (apply leb_zero_gtb_false, Hbelow).
    rewrite calculate_below by exact Hbelow. reflexivity.
Qed.

(** C5, as the code has it: [bsdf_principled_diffuse_setup] always
    returns, with [SD_BSDF | SD_BSDF_HAS_EVAL] as flags and the type tag set
    to [CLOSURE_BSDF_PRINCIPLED_DIFFUSE_ID]; the roughness and the normal of
    the closure are left exactly as they were passed in, nothing is clamped
    and nothing is rejected. *)
Theorem setup_sets_tag_and_keeps_parameters (bsdf : PrincipledDiffuseBsdf) :
  let r := bsdf_principled_diffuse_setup bsdf in
  fst r = Z.lor SD_BSDF SD_BSDF_HAS_EVAL
  /\ closure_type (snd r) = CLOSURE_BSDF_PRINCIPLED_DIFFUSE_ID
  /\ roughness (snd r) = roughness bsdf
  /\ closure_N (snd r) = closure_N bsdf.
Proof. cbn. auto. Qed.

(** C6, the code at a call whose pdf slot holds [1] on entry:
    [bsdf_principled_diffuse_eval_transmit] returns the zero contribution
    and the slot still holds [1]; more generally the slot keeps whatever
    it held. *)
Theorem eval_transmit_leaves_pdf (sc : ShaderClosure) (I w : float3) :
  bsdf_principled_diffuse_eval_transmit sc I w F32.one
  = (make_float3 F32.zero F32.zero F32.zero, F32.one)
  /\ forall p : float,
       bsdf_principled_diffuse_eval_transmit sc I w p
       = (make_float3 F32.zero F32.zero F32.zero, p).
Proof. split; reflexivity. Qed.

(** C9: when the drawn direction has [dot Ng incoming <= 0], the result
    of [bsdf_principled_diffuse_sample] is the state left by
    [sample_cos_hemisphere] with [pdf] overwritten by [0]: [eval] and both
    ray differentials hold their values from before the call, and the
    label returned is [LABEL_REFLECT | LABEL_DIFFUSE], the label of every
    call. *)
Theorem sample_invalid_branch_frame
    (sc : ShaderClosure) (Ng I dIdx dIdy : float3) (randu randv : float)
    (out : SampleOut) :
  (dot Ng (fst (sample_cos_hemisphere (closure_N sc) randu randv))
     <=? F32.zero) = true ->
  let r := bsdf_principled_diffuse_sample sc Ng I dIdx dIdy randu randv out in
  pdf (snd r) = F32.zero
  /\ eval (snd r) = eval out
  /\ domega_in_dx (snd r) = domega_in_dx out
  /\ domega_in_dy (snd r) = domega_in_dy out
  /\ omega_in (snd r)
     = fst (sample_cos_hemisphere (closure_N sc) randu randv)
  /\ fst r = Z.lor LABEL_REFLECT LABEL_DIFFUSE
  /\ forall sc' Ng' I' dIdx' dIdy' randu' randv' out',
       fst (bsdf_principled_diffuse_sample
              sc' Ng' I' dIdx' dIdy' randu' randv' out')
       = fst r.
Proof.
  intros Hbelow r. subst r.
  rewrite sample_rejected by (apply leb_zero_gtb_false, Hbelow).
  cbn [fst snd pdf eval domega_in_dx domega_in_dy omega_in].
  repeat split. intros. apply sample_label.
Qed.

(** C10: when [dot N incoming > 0], the pdf handed back by
    [bsdf_principled_diffuse_eval_reflect] is [dot N incoming . (1/pi)],
    the same for every roughness, since
    [calculate_principled_diffuse_brdf] hands its pdf back as it received
    it. *)
Theorem eval_reflect_pdf_cosine
    (sc : ShaderClosure) (I w : float3) (p : float) :
  (dot (closure_N sc) w >? F32.zero) = true ->
  snd (bsdf_principled_diffuse_eval_reflect sc I w p)
  = dot (closure_N sc) w * M_1_PI_F
  /\ (forall rough' : float,
        snd (bsdf_principled_diffuse_eval_reflect
               {| closure_type := closure_type sc;
                  closure_N := closure_N sc;
                  roughness := rough' |} I w p)
        = dot (closure_N sc) w * M_1_PI_F)
  /\ (forall bsdf N V L q,
        snd (calculate_principled_diffuse_brdf bsdf N V L q) = q).
Proof.
  intros Habove. repeat split.
  - rewrite eval_reflect_above by exact Habove. apply calculate_keeps_pdf.
  - intros rough'. rewrite eval_reflect_above by exact Habove.
    apply calculate_keeps_pdf.
  - intros. apply calculate_keeps_pdf.
Qed.

End Contract.
(** ** The scheduler: what an execution preserves *)

Module SchedulerFacts.

Import PathTraceWorkCPU.

Section Invariants.

Variable RenderBuffers : Type.
Variable full_pipeline : WorkItem -> RenderBuffers -> RenderBuffers.

Local Abbreviation State := (State RenderBuffers).
Local Abbreviation step := (step full_pipeline).
Local Abbreviation exec := (exec full_pipeline).
Local Abbreviation accumulate := (accumulate full_pipeline).
Local Abbreviation Inv := (Inv full_pipeline).

Lemma accumulate_app (xs ys : list WorkItem) (b : RenderBuffers) :
  accumulate (xs ++ ys) b = accumulate ys (accumulate xs b).
Proof. unfold PathTraceWorkCPU.accumulate. apply fold_left_app. Qed.

Lemma set_worker_length (w : nat) (job : list WorkItem) ws :
  length (set_worker w job ws) = length ws.
Proof.
  revert w; induction ws as [|j ws IH]; intros [|w]; cbn; auto.
Qed.

(** Replacing the work of one worker moves exactly that work. *)
Lemma set_worker_concat (w : nat) (old new : list WorkItem) ws :
  nth_error ws w = Some old ->
  Permutation (old ++ concat (set_worker w new ws)) (new ++ concat ws).
Proof.
  revert w; induction ws as [|j ws IH]; intros [|w] Hw; cbn in *;
    try discriminate.
  - injection Hw as ->. apply Permutation_app_swap_app.
  - specialize (IH _ Hw).
    rewrite (Permutation_app_swap_app old j), IH.
    apply Permutation_app_swap_app.
Qed.

Lemma busy_worker ws :
  forallb is_idle ws = false ->
  exists w item rest, nth_error ws w = Some (item :: rest).
Proof.
  induction ws as [|j ws IH]; cbn; [discriminate|].
  destruct j as [|item rest]; cbn.
  - intros H. destruct (IH H) as (w & it & r & Hw).
    exists (S w), it, r. exact Hw.
  - intros _. exists 0%nat, item, rest. reflexivity.
Qed.

Lemma idle_worker ws w job :
  forallb is_idle ws = true -> nth_error ws w = Some job -> job = [].
Proof.
  revert w; induction ws as [|j ws IH]; intros [|w]; cbn;
    try discriminate; intros H Hw; apply andb_prop in H as [Hj Hws].
  - injection Hw as <-. destruct j; [reflexivity | discriminate].
  - eauto.
Qed.

Lemma concat_repeat_nil (n : nat) : concat (repeat (@nil WorkItem) n) = [].
Proof. induction n; cbn; auto. Qed.

Lemma Inv_init workers tiles cancel b0 :
  Inv workers tiles b0 (init workers tiles cancel b0).
Proof.
  split; cbn; auto.
  - apply repeat_length.
  - rewrite concat_repeat_nil. constructor.
Qed.

Lemma Inv_step workers tiles b0 e s s' :
  Inv workers tiles b0 s -> step e s = Some s' -> Inv workers tiles b0 s'.
Proof.
  intros [Hw Hb Ht Hs Hp] Hstep. destruct e as [|w|w]; cbn in Hstep.
  - injection Hstep as <-. split; cbn; auto. discriminate.
  - destruct (nth_error (in_flight s) w) as [[|]|] eqn:Hjob;
      try discriminate.
    destruct (queue s) as [|t q] eqn:Hq; try discriminate.
    destruct (cancel_requested s) eqn:Hc; injection Hstep as <-;
      split; cbn; auto.
    + rewrite Ht, <- !app_assoc. reflexivity.
    + discriminate.
    + rewrite set_worker_length. exact Hw.
    + rewrite Ht, Hs by reflexivity. cbn. rewrite <- app_assoc. reflexivity.
    + rewrite flat_map_app. cbn. rewrite app_nil_r.
      pose proof (set_worker_concat w (tile_work t) _ Hjob) as Hset.
      cbn in Hset. rewrite Hset, <- Hp.
      rewrite Permutation_app_swap_app. apply Permutation_app_comm.
  - destruct (nth_error (in_flight s) w) as [[|item rest]|] eqn:Hjob;
      try discriminate.
    injection Hstep as <-. split; cbn; auto.
    + rewrite set_worker_length. exact Hw.
    + rewrite Hb. unfold PathTraceWorkCPU.accumulate.
      rewrite fold_left_app. reflexivity.
    + pose proof (set_worker_concat w rest _ Hjob) as Hset.
      rewrite <- Hp, <- app_assoc. apply Permutation_app_head.
      apply Permutation_app_inv_l with (l := rest).
      etransitivity; [|exact Hset].
      symmetry. apply Permutation_middle.
Qed.

Lemma Inv_exec workers tiles b0 es :
  forall s s', Inv workers tiles b0 s -> exec es s = Some s' ->
               Inv workers tiles b0 s'.
Proof.
  induction es as [|e es IH]; cbn; intros s s' Hinv Hexec.
  - injection Hexec as <-. exact Hinv.
  - destruct (step e s) as [s1|] eqn:Hstep; [|discriminate].
    eapply IH; [eapply Inv_step|]; eassumption.
Qed.

(** Samples are only ever added, and a raised flag stays raised and
    stops tiles from being started. *)
Lemma step_grows e s s' :
  step e s = Some s' ->
  (exists more, history s' = history s ++ more
                /\ render_buffers s' = accumulate more (render_buffers s))
  /\ (cancel_requested s = true ->
      cancel_requested s' = true /\ started s' = started s).
Proof.
  intros Hstep. destruct e as [|w|w]; cbn in Hstep.
  - injection Hstep as <-. cbn. split; [|auto].
    exists []. rewrite app_nil_r. auto.
  - destruct (nth_error (in_flight s) w) as [[|]|]; try discriminate.
    destruct (queue s) as [|t q]; try discriminate.
    destruct (cancel_requested s); injection Hstep as <-; cbn;
      (split; [exists []; rewrite app_nil_r; auto | auto; discriminate]).
  - destruct (nth_error (in_flight s) w) as [[|item rest]|];
      try discriminate.
    injection Hstep as <-. cbn. split; [|auto].
    exists [item]. auto.
Qed.

Lemma exec_grows es :
  forall s s', exec es s = Some s' ->
  (exists more, history s' = history s ++ more
                /\ render_buffers s' = accumulate more (render_buffers s))
  /\ (cancel_requested s = true ->
      cancel_requested s' = true /\ started s' = started s).
Proof.
  induction es as [|e es IH]; cbn; intros s s' Hexec.
  - injection Hexec as <-. split; [|auto].
    exists []. rewrite app_nil_r. auto.
  - destruct (step e s) as [s1|] eqn:Hstep; [|discriminate].
    destruct (step_grows _ _ Hstep) as [(m1 & Hh1 & Hb1) Hc1].
    destruct (IH _ _ Hexec) as [(m2 & Hh2 & Hb2) Hc2].
    split.
    + exists (m1 ++ m2). rewrite Hh2, Hh1, Hb2, Hb1, accumulate_app.
      rewrite app_assoc. auto.
    + intros Hc. destruct (Hc1 Hc) as [Hc' Hst].
      destruct (Hc2 Hc') as [Hc'' Hst']. split; congruence.
Qed.

(** Every event of a worker uses up work. *)
Lemma step_decreases e s s' :
  step e s = Some s' -> is_cancel e = false ->
  (remaining s' < remaining s)%nat.
Proof.
  unfold remaining. intros Hstep Hnc.
  destruct e as [|w|w]; cbn in Hstep; [discriminate| |].
  - destruct (nth_error (in_flight s) w) as [[|]|] eqn:Hjob;
      try discriminate.
    destruct (queue s) as [|t q]; try discriminate.
    destruct (cancel_requested s); injection Hstep as <-; cbn.
    + rewrite length_app. lia.
    + pose proof (Permutation_length
                    (set_worker_concat w (tile_work t) _ Hjob)) as Hlen.
      cbn in Hlen. rewrite !length_app in *. lia.
  - destruct (nth_error (in_flight s) w) as [[|item rest]|] eqn:Hjob;
      try discriminate.
    injection Hstep as <-. cbn.
    pose proof (Permutation_length (set_worker_concat w rest _ Hjob))
      as Hlen.
    cbn in Hlen. rewrite !length_app in *. cbn in Hlen. lia.
Qed.

(** As long as [render_samples] has not finished, some worker can act. *)
Lemma step_progress (s : State) :
  finished s = false -> (0 < length (in_flight s))%nat ->
  exists e s', is_cancel e = false /\ step e s = Some s'.
Proof.
  unfold finished. intros Hnot Hworkers.
  destruct (forallb is_idle (in_flight s)) eqn:Hidle.
  - destruct (queue s) as [|t q] eqn:Hq; [discriminate|].
    destruct (in_flight s) as [|j ws] eqn:Hfl; [cbn in Hworkers; lia|].
    assert (Hj : j = []) by (apply (idle_worker _ 0 Hidle); reflexivity).
    subst j. exists (NextTile 0). cbn. rewrite Hfl, Hq. cbn.
    destruct (cancel_requested s); eauto.
  - destruct (busy_worker _ Hidle) as (w & item & rest & Hw).
    exists (RunSample w). cbn. rewrite Hw. eauto.
Qed.

Lemma finished_no_work (s : State) :
  finished s = true -> queue s = [] /\ concat (in_flight s) = [].
Proof.
  unfold finished. destruct (queue s); [|discriminate].
  intros Hidle. split; [reflexivity|].
  induction (in_flight s) as [|j ws IH]; cbn in *; [reflexivity|].
  apply andb_prop in Hidle as [Hj Hws].
  destruct j; [cbn; auto | discriminate].
Qed.

End Invariants.

End SchedulerFacts.

(** ** Cancellation of [render_samples] *)

Section Cancellation.

Import PathTraceWorkCPU SchedulerFacts.

Variable RenderBuffers : Type.
Variable full_pipeline : WorkItem -> RenderBuffers -> RenderBuffers.

Lemma step_keeps_workers (e : Event) (s s' : State RenderBuffers) :
  step full_pipeline e s = Some s' ->
  length (in_flight s') = length (in_flight s).
Proof.
  intros Hstep. destruct e as [|w|w]; cbn in Hstep.
  - injection Hstep as <-. reflexivity.
  - destruct (nth_error (in_flight s) w) as [[|]|]; try discriminate.
    destruct (queue s) as [|t q]; try discriminate.
    destruct (cancel_requested s); injection Hstep as <-; cbn;
      [reflexivity | apply set_worker_length].
  - destruct (nth_error (in_flight s) w) as [[|item rest]|];
      try discriminate.
    injection Hstep as <-. cbn. apply set_worker_length.
Qed.

(** With at least one worker, the workers alone bring any state to the
    end of [render_samples]. *)
Lemma workers_finish (n : nat) :
  forall s : State RenderBuffers,
    (remaining s <= n)%nat -> (0 < length (in_flight s))%nat ->
    exists es s',
      existsb is_cancel es = false
      /\ exec full_pipeline es s = Some s' /\ finished s' = true.
Proof.
  induction n as [|n IH]; intros s Hrem Hworkers;
    destruct (finished s) eqn:Hfin;
    try (exists [], s; cbn; auto; fail);
    destruct (step_progress full_pipeline s Hfin Hworkers)
      as (e & s1 & Hnc & Hstep);
    pose proof (step_decreases _ _ _ Hstep Hnc) as Hdec.
  - lia.
  - assert (Hw1 : (0 < length (in_flight s1))%nat)
      by (erewrite step_keeps_workers by exact Hstep; exact Hworkers).
    destruct (IH s1 ltac:(lia) Hw1) as (es & s' & Hex & Hexec & Hf).
    exists (e :: es), s'. cbn. rewrite Hnc, Hstep. auto.
Qed.

(** What a call that returns leaves behind, and that a call can return. *)
Lemma render_samples_returns
    (workers : nat) (tiles : list KernelWorkTile) (cancel : bool)
    (b0 : RenderBuffers) (s : State RenderBuffers) :
  render_samples full_pipeline workers tiles cancel b0 s ->
  tiles = started s ++ skipped s
  /\ Permutation (history s) (flat_map tile_work (started s))
  /\ render_buffers s = accumulate full_pipeline (history s) b0
  /\ (cancel_requested s = false -> started s = tiles).
Proof.
  intros (es & Hexec & Hfin).
  destruct (Inv_exec es (Inv_init full_pipeline workers tiles cancel b0) Hexec)
    as [Hw Hb Ht Hs Hp].
  destruct (finished_no_work _ Hfin) as [Hq Hfl].
  rewrite Hq, app_nil_r in Ht. rewrite Hfl, app_nil_r in Hp.
  repeat split; auto.
  intros Hc. rewrite Ht, (Hs Hc), app_nil_r. reflexivity.
Qed.

Lemma render_samples_can_return
    (workers : nat) (tiles : list KernelWorkTile) (cancel : bool)
    (b0 : RenderBuffers) :
  (0 < workers)%nat ->
  exists s, render_samples full_pipeline workers tiles cancel b0 s.
Proof.
  intros Hpos.
  destruct (@workers_finish (remaining (init workers tiles cancel b0))
              (init workers tiles cancel b0) (le_n _))
    as (es & s & _ & Hexec & Hfin).
  - cbn. rewrite repeat_length. exact Hpos.
  - exists s, es. auto.
Qed.

(** C8: in every execution of [render_samples], whenever cancellation is
    requested: the tiles are split, in order, into those started, those
    passed over and those still queued, and none is passed over before the
    flag is raised; the pipeline runs made so far together with the work
    left in the tiles in flight are exactly the (pixel, sample) pairs of the
    started tiles, so that at the end every started tile has been run in
    full; the buffers hold the accumulation of the runs made; whatever
    happens next only adds runs on top of them and, once the flag is
    raised, starts no further tile; and the workers always reach the end,
    every one of their events using up work. *)
Theorem render_samples_cancellable_between_tiles
    (workers : nat) (tiles : list KernelWorkTile) (cancel : bool)
    (b0 : RenderBuffers) (es : list Event) (s : State RenderBuffers) :
  exec full_pipeline es (init workers tiles cancel b0) = Some s ->
  tiles = started s ++ skipped s ++ queue s
  /\ (cancel_requested s = false -> skipped s = [])
  /\ Permutation (history s ++ concat (in_flight s))
                 (flat_map tile_work (started s))
  /\ (finished s = true ->
      tiles = started s ++ skipped s
      /\ Permutation (history s) (flat_map tile_work (started s)))
  /\ render_buffers s = accumulate full_pipeline (history s) b0
  /\ (forall es' s',
        exec full_pipeline es' s = Some s' ->
        (exists more,
            history s' = history s ++ more
            /\ render_buffers s'
               = accumulate full_pipeline more (render_buffers s))
        /\ (cancel_requested s = true ->
            cancel_requested s' = true /\ started s' = started s))
  /\ (forall e s',
        step full_pipeline e s = Some s' -> is_cancel e = false ->
        (remaining s' < remaining s)%nat)
  /\ ((0 < workers)%nat ->
      exists es' s',
        existsb is_cancel es' = false
        /\ exec full_pipeline es' s = Some s' /\ finished s' = true).
Proof.
  intros Hexec.
  destruct (Inv_exec es (Inv_init full_pipeline workers tiles cancel b0) Hexec)
    as [Hw Hb Ht Hs Hp].
  repeat match goal with |- _ /\ _ => split end; auto.
  - intros Hfin. destruct (finished_no_work _ Hfin) as [Hq Hfl].
    rewrite Hq, app_nil_r in Ht. rewrite Hfl, app_nil_r in Hp. auto.
  - intros es' s'. apply exec_grows.
  - intros e s'. apply step_decreases.
  - intros Hpos. rewrite <- Hw in Hpos.
    eapply workers_finish; [apply le_n | exact Hpos].
Qed.

End Cancellation.

(** ** The statements on concrete inputs *)

Module Instances.

Import Reference.

Local Open Scope f32_scope.

(** [bsdf_principled_diffuse_setup] hands the roughness two back as two:
    whatever proper range is taken as the valid one, a value outside it
    stays outside. *)
Lemma setup_keeps_out_of_range_roughness :
  roughness (snd (@bsdf_principled_diffuse_setup kernel rough_closure))
  = F32.two
  /\ in_unit_interval
       (roughness (snd (@bsdf_principled_diffuse_setup kernel rough_closure)))
     = false
  /\ ~ (exists valid : float -> bool,
          (exists r, valid r = false)
          /\ forall bsdf,
               valid (roughness
                        (snd (@bsdf_principled_diffuse_setup kernel bsdf)))
               = true).
Proof.
  split; [reflexivity | split; [reflexivity|]].
  intros (valid & (r & Hout) & Hclamp).
  specialize (Hclamp (closure r)). cbn in Hclamp. congruence.
Qed.

Lemma principled_diffuse_brdf_formula_witness :
  (@dot kernel up slanted >? F32.zero) = true
  /\ fst (@calculate_principled_diffuse_brdf kernel
            (closure F32.half) up slanted slanted F32.one)
     = replicate3 (@principled_diffuse_value kernel F32.half
                     (dot3 up slanted) (dot3 up slanted)
                     (dot3 slanted slanted)).
Proof.
  split; [reflexivity|].
  apply (@principled_diffuse_brdf_formula kernel 0%Z up F32.half
           up slanted slanted F32.one).
  reflexivity.
Defined.

Lemma eval_reflect_wrong_side_zero_witness :
  (@dot kernel (closure_N (closure F32.half)) down <=? F32.zero) = true
  /\ @bsdf_principled_diffuse_eval_reflect kernel
       (closure F32.half) slanted down F32.one
     = (float3_zero, F32.zero).
Proof.
  split; [reflexivity|].
  apply (@eval_reflect_wrong_side_zero kernel). reflexivity.
Defined.

Lemma sample_below_geometric_normal_zero_pdf_witness :
  (@dot kernel down
     (fst (@sample_cos_hemisphere kernel (closure_N (closure F32.half))
             F32.half F32.half)) <=? F32.zero) = true
  /\ pdf (snd (@bsdf_principled_diffuse_sample kernel (closure F32.half)
                 down slanted float3_zero float3_zero F32.half F32.half
                 blank))
     = F32.zero.
Proof.
  split; [vm_compute; reflexivity|].
  apply (@sample_below_geometric_normal_zero_pdf kernel).
  vm_compute; reflexivity.
Defined.

Lemma sample_then_eval_reflect_agree_witness :
  let r := snd (@bsdf_principled_diffuse_sample kernel (closure F32.half)
                  up slanted float3_zero float3_zero F32.half F32.half
                  blank) in
  (@dot kernel up (omega_in r) >? F32.zero) = true
  /\ F32.is_nan (@dot kernel (closure_N (closure F32.half)) (omega_in r))
     = false
  /\ fst (@bsdf_principled_diffuse_eval_reflect kernel (closure F32.half)
            slanted (omega_in r) F32.zero)
     = eval r.
Proof.
  split; [vm_compute; reflexivity|].
  split; [vm_compute; reflexivity|].
  apply (@sample_then_eval_reflect_agree kernel);
    vm_compute; reflexivity.
Defined.

Lemma sample_invalid_branch_frame_witness :
  (@dot kernel down
     (fst (@sample_cos_hemisphere kernel (closure_N (closure F32.half))
             F32.half F32.half)) <=? F32.zero) = true
  /\ eval (snd (@bsdf_principled_diffuse_sample kernel (closure F32.half)
                  down slanted float3_zero float3_zero F32.half F32.half
                  blank))
     = eval blank.
Proof.
  split; [vm_compute; reflexivity|].
  apply (@sample_invalid_branch_frame kernel (closure F32.half)
           down slanted float3_zero float3_zero F32.half F32.half blank).
  vm_compute; reflexivity.
Defined.

Lemma eval_reflect_pdf_cosine_witness :
  (@dot kernel (closure_N (closure F32.half)) slanted >? F32.zero) = true
  /\ snd (@bsdf_principled_diffuse_eval_reflect kernel (closure F32.half)
            slanted slanted F32.one)
     = dot3 up slanted * inv_pi.
Proof.
  split; [reflexivity|].
  apply (@eval_reflect_pdf_cosine kernel (closure F32.half)
           slanted slanted F32.one).
  reflexivity.
Defined.

Import PathTraceWorkCPU.

Lemma render_samples_cancellable_between_tiles_witness :
  exec count_pipeline cancelled_run (init 2 four_tiles false [])
  = Some cancelled_end
  /\ render_buffers cancelled_end
     = accumulate count_pipeline (history cancelled_end) [].
Proof.
  split; [reflexivity|].
  apply (@render_samples_cancellable_between_tiles SampleCounts
           count_pipeline 2 four_tiles false [] cancelled_run cancelled_end).
  reflexivity.
Defined.

(** The buffers of the cancelled run are those of a run of the first
    tile alone. *)
Example cancelled_run_matches_first_tile :
  render_buffers cancelled_end
  = accumulate count_pipeline (tile_work (pixel_tile 0 0 2)) [].
Proof. reflexivity. Qed.

End Instances.


(** ** Further properties of the closure *)

Section ClosureMore.

Context {K : KernelUtil}.

Local Open Scope f32_scope.

Lemma mul_nan_r (a : float) : a * S754_nan = S754_nan.
Proof. destruct a; reflexivity. Qed.

Lemma calculate_nan (bsdf : PrincipledDiffuseBsdf) (N V L : float3) (p : float) :
  F32.is_nan (dot N L) = true ->
  calculate_principled_diffuse_brdf bsdf N V L p
  = (make_float3 S754_nan S754_nan S754_nan, p).
Proof.
  intros Hnan. unfold calculate_principled_diffuse_brdf.
  destruct (dot N L) eqn:Hd; try discriminate.
  cbn [F32.leb SFleb SFcompare]. cbv iota. rewrite mul_nan_r. reflexivity.
Qed.

Lemma sample_direction
    (sc : ShaderClosure) (Ng I dIdx dIdy : float3) (randu randv : float)
    (out : SampleOut) :
  omega_in (snd (bsdf_principled_diffuse_sample
                   sc Ng I dIdx dIdy randu randv out))
  = fst (sample_cos_hemisphere (closure_N sc) randu randv).
Proof.
  unfold bsdf_principled_diffuse_sample.
  destruct (sample_cos_hemisphere (closure_N sc) randu randv) as [w q].
  cbn [fst omega_in pdf].
  destruct (dot Ng w >? F32.zero); [|reflexivity].
  destruct (calculate_principled_diffuse_brdf sc (closure_N sc) I w q).
  destruct RAY_DIFFERENTIALS; reflexivity.
Qed.

Lemma sample_accepted_pdf
    (sc : ShaderClosure) (Ng I dIdx dIdy : float3) (randu randv : float)
    (out : SampleOut) :
  (dot Ng (fst (sample_cos_hemisphere (closure_N sc) randu randv))
     >? F32.zero) = true ->
  pdf (snd (bsdf_principled_diffuse_sample sc Ng I dIdx dIdy randu randv out))
  = snd (sample_cos_hemisphere (closure_N sc) randu randv).
Proof.
  unfold bsdf_principled_diffuse_sample.
  destruct (sample_cos_hemisphere (closure_N sc) randu randv) as [w q].
  cbn [fst snd omega_in pdf]. intros Hok. rewrite Hok.
  pose proof (calculate_keeps_pdf sc (closure_N sc) I w q) as Hkeep.
  destruct (calculate_principled_diffuse_brdf sc (closure_N sc) I w q)
    as [e q'].
  cbn in Hkeep. subst q'. destruct RAY_DIFFERENTIALS; reflexivity.
Qed.

Lemma calculate_contribution_ignores_pdf
    (bsdf : PrincipledDiffuseBsdf) (N V L : float3) (p q : float) :
  fst (calculate_principled_diffuse_brdf bsdf N V L p)
  = fst (calculate_principled_diffuse_brdf bsdf N V L q).
Proof.
  unfold calculate_principled_diffuse_brdf.
  destruct (dot N L <=? F32.zero); reflexivity.
Qed.

(** A pdf that compares different from zero after
    [bsdf_principled_diffuse_sample] tells the caller that the direction
    handed back is above the geometric normal, that the pdf is the density
    stored by [sample_cos_hemisphere] and that [eval] is the contribution
    computed at that direction. *)
Theorem sample_nonzero_pdf_accepted
    (sc : ShaderClosure) (Ng I dIdx dIdy : float3) (randu randv : float)
    (out : SampleOut) :
  let r := snd (bsdf_principled_diffuse_sample
                  sc Ng I dIdx dIdy randu randv out) in
  (pdf r =? F32.zero) = false ->
  (dot Ng (omega_in r) >? F32.zero) = true
  /\ pdf r = snd (sample_cos_hemisphere (closure_N sc) randu randv)
  /\ eval r = fst (calculate_principled_diffuse_brdf
                     sc (closure_N sc) I (omega_in r) (pdf r)).
Proof.
  intros r Hpdf. subst r. rewrite sample_direction in *.
  destruct (dot Ng (fst (sample_cos_hemisphere (closure_N sc) randu randv))
              >? F32.zero) eqn:Hok.
  - destruct (sample_accepted sc Ng I dIdx dIdy randu randv out Hok)
      as [_ Heval].
    split; [reflexivity|]. split; [apply sample_accepted_pdf, Hok|].
    rewrite Heval. apply calculate_contribution_ignores_pdf.
  - rewrite sample_rejected in Hpdf by exact Hok. discriminate Hpdf.
Qed.

(** A direction above the geometric normal but not above the shading normal
    is accepted by [bsdf_principled_diffuse_sample] with a zero
    contribution, and the pdf is left at the density stored by
    [sample_cos_hemisphere], not reset to zero. *)
Theorem sample_accepted_below_shading_normal
    (sc : ShaderClosure) (Ng I dIdx dIdy : float3) (randu randv : float)
    (out : SampleOut) :
  let w := fst (sample_cos_hemisphere (closure_N sc) randu randv) in
  (dot Ng w >? F32.zero) = true ->
  (dot (closure_N sc) w <=? F32.zero) = true ->
  let r := snd (bsdf_principled_diffuse_sample
                  sc Ng I dIdx dIdy randu randv out) in
  eval r = make_float3 F32.zero F32.zero F32.zero
  /\ pdf r = snd (sample_cos_hemisphere (closure_N sc) randu randv).
Proof.
  intros w Hok Hbelow r. subst r.
  destruct (sample_accepted sc Ng I dIdx dIdy randu randv out Hok)
    as [_ Heval].
  split.
  - rewrite Heval. fold w. rewrite calculate_below by exact Hbelow.
    reflexivity.
  - apply sample_accepted_pdf, Hok.
Qed.

(** When the cosine between the shading normal and an accepted direction is
    a NaN, [bsdf_principled_diffuse_sample] stores a NaN in the three
    channels of [eval], the guard [NdotL <= 0] of
    [calculate_principled_diffuse_brdf] being false on a NaN, whereas
    [bsdf_principled_diffuse_eval_reflect] answers the zero contribution and
    a zero pdf for the same pair of directions. *)
Theorem sample_nan_cosine_disagrees
    (sc : ShaderClosure) (Ng I dIdx dIdy : float3) (randu randv : float)
    (out : SampleOut) (p : float) :
  let r := snd (bsdf_principled_diffuse_sample
                  sc Ng I dIdx dIdy randu randv out) in
  (dot Ng (omega_in r) >? F32.zero) = true ->
  F32.is_nan (dot (closure_N sc) (omega_in r)) = true ->
  eval r = make_float3 S754_nan S754_nan S754_nan
  /\ bsdf_principled_diffuse_eval_reflect sc I (omega_in r) p
     = (make_float3 F32.zero F32.zero F32.zero, F32.zero).
Proof.
  intros r Hok Hnan. subst r. rewrite sample_direction in *.
  destruct (sample_accepted sc Ng I dIdx dIdy randu randv out Hok)
    as [_ Heval].
  split.
  - rewrite Heval, calculate_nan by exact Hnan. reflexivity.
  - apply eval_reflect_not_above.
    destruct (dot (closure_N sc)
                (fst (sample_cos_hemisphere (closure_N sc) randu randv)));
      try discriminate. reflexivity.
Qed.

(** [bsdf_principled_diffuse_setup] only stamps the type tag, which no
    evaluation reads: reflection, transmission and sampling give the same
    results on the closure it hands back as on the closure it received, and
    setting up twice is the same as setting up once. *)
Theorem setup_transparent_to_evaluation
    (sc : ShaderClosure) (Ng I w dIdx dIdy : float3) (randu randv p : float)
    (out : SampleOut) :
  let sc' := snd (bsdf_principled_diffuse_setup sc) in
  bsdf_principled_diffuse_eval_reflect sc' I w p
  = bsdf_principled_diffuse_eval_reflect sc I w p
  /\ bsdf_principled_diffuse_eval_transmit sc' I w p
     = bsdf_principled_diffuse_eval_transmit sc I w p
  /\ bsdf_principled_diffuse_sample sc' Ng I dIdx dIdy randu randv out
     = bsdf_principled_diffuse_sample sc Ng I dIdx dIdy randu randv out
  /\ bsdf_principled_diffuse_setup sc'
     = bsdf_principled_diffuse_setup sc.
Proof. repeat split. Qed.

(** Every contribution is grey: the three channels returned by
    [calculate_principled_diffuse_brdf],
    [bsdf_principled_diffuse_eval_reflect] and
    [bsdf_principled_diffuse_eval_transmit] are one and the same number,
    on every branch. *)
Theorem contribution_channels_equal
    (sc : ShaderClosure) (N V L : float3) (p : float) :
  let same (c : float3) := x c = y c /\ y c = z c in
  same (fst (calculate_principled_diffuse_brdf sc N V L p))
  /\ same (fst (bsdf_principled_diffuse_eval_reflect sc V L p))
  /\ same (fst (bsdf_principled_diffuse_eval_transmit sc V L p)).
Proof.
  assert (Hcalc : forall N' q,
             let c := fst (calculate_principled_diffuse_brdf sc N' V L q) in
             x c = y c /\ y c = z c).
  { intros N' q. unfold calculate_principled_diffuse_brdf.
    destruct (dot N' L <=? F32.zero); cbn; auto. }
  cbv zeta. split; [apply Hcalc|]. split; [|cbn; auto].
  unfold bsdf_principled_diffuse_eval_reflect.
  destruct (dot (closure_N sc) L >? F32.zero); [apply Hcalc | cbn; auto].
Qed.

(** The ray-differential outputs of [bsdf_principled_diffuse_sample] keep
    their values from before the call on every input when the kernel is
    built without [__RAY_DIFFERENTIALS__], and in every build when the
    direction drawn is not above the geometric normal (a NaN cosine
    included). *)
Theorem sample_differentials_untouched
    (sc : ShaderClosure) (Ng I dIdx dIdy : float3) (randu randv : float)
    (out : SampleOut) :
  RAY_DIFFERENTIALS = false
  \/ (dot Ng (fst (sample_cos_hemisphere (closure_N sc) randu randv))
        >? F32.zero) = false ->
  let r := snd (bsdf_principled_diffuse_sample
                  sc Ng I dIdx dIdy randu randv out) in
  domega_in_dx r = domega_in_dx out /\ domega_in_dy r = domega_in_dy out.
Proof.
  intros Hcase r. subst r. unfold bsdf_principled_diffuse_sample.
  destruct (sample_cos_hemisphere (closure_N sc) randu randv) as [w q].
  cbn [fst omega_in pdf] in *.
  destruct (dot Ng w >? F32.zero); [|cbn; auto].
  destruct (calculate_principled_diffuse_brdf sc (closure_N sc) I w q).
  destruct RAY_DIFFERENTIALS; [|cbn; auto].
  destruct Hcase; discriminate.
Qed.

End ClosureMore.


(** ** Properties of the cage gizmo *)

Section Cage2dFacts.

Import Cage2d.

Context {T : GizmoTypes} {G : GizmoLib}.

Local Open Scope Z_scope.

Lemma has_flag_zero (mask : Z) : has_flag 0 mask = false.
Proof. unfold has_flag. rewrite Z.land_0_l. reflexivity. Qed.

Lemma margin_of_scale (gz : wmGizmo) (dims : float2) :
  gizmo_calc_rect_view_scale gz dims = None ->
  gizmo_calc_rect_view_margin gz dims = (false, (F32.zero, F32.zero)).
Proof.
  intros Hscale. unfold gizmo_calc_rect_view_margin. rewrite Hscale.
  reflexivity.
Qed.

(** Every answer of the hit test is [-1] or a part that came out of the
    block of an enabled transform. *)
Lemma test_select_cases (C : bContext) (gz : wmGizmo) (mval : Z * Z) :
  let r := gizmo_cage2d_test_select C gz mval in
  r = -1
  \/ (r = ED_GIZMO_CAGE2D_PART_TRANSLATE
      /\ has_flag (transform gz) ED_GIZMO_CAGE2D_XFORM_FLAG_TRANSLATE = true)
  \/ (In r scale_parts
      /\ has_flag (transform gz)
           (Z.lor ED_GIZMO_CAGE2D_XFORM_FLAG_SCALE
                  ED_GIZMO_CAGE2D_XFORM_FLAG_SCALE_UNIFORM) = true)
  \/ (r = ED_GIZMO_CAGE2D_PART_ROTATE
      /\ has_flag (transform gz) ED_GIZMO_CAGE2D_XFORM_FLAG_ROTATE = true).
Proof.
  unfold gizmo_cage2d_test_select.
  destruct (gizmo_window_project_2d _ _ _ _ _) as [pt|]; [|auto].
  destruct (gizmo_calc_rect_view_margin gz (dimensions gz)) as [ok margin].
  destruct ok; cbn [negb]; [|auto].
  destruct (has_flag (transform gz) ED_GIZMO_CAGE2D_XFORM_FLAG_TRANSLATE).
  - match goal with |- context [BLI_rctf_isect_pt_v ?r pt] =>
      destruct (BLI_rctf_isect_pt_v r pt) end; [auto|].
    destruct (has_flag (transform gz) (Z.lor _ _)); cbn [andb];
      repeat match goal with |- context [BLI_rctf_isect_pt_v ?r pt] =>
        destruct (BLI_rctf_isect_pt_v r pt) end;
      try (right; right; left; split; [cbn; tauto | reflexivity]);
      destruct (has_flag (transform gz) ED_GIZMO_CAGE2D_XFORM_FLAG_ROTATE);
      repeat match goal with |- context [BLI_rctf_isect_pt_v ?r pt] =>
        destruct (BLI_rctf_isect_pt_v r pt) end; auto 6.
  - destruct (has_flag (transform gz) (Z.lor _ _)); cbn [andb];
      repeat match goal with |- context [BLI_rctf_isect_pt_v ?r pt] =>
        destruct (BLI_rctf_isect_pt_v r pt) end;
      try (right; right; left; split; [cbn; tauto | reflexivity]);
      destruct (has_flag (transform gz) ED_GIZMO_CAGE2D_XFORM_FLAG_ROTATE);
      repeat match goal with |- context [BLI_rctf_isect_pt_v ?r pt] =>
        destruct (BLI_rctf_isect_pt_v r pt) end; auto 6.
Qed.

Lemma translate_in_parts : In ED_GIZMO_CAGE2D_PART_TRANSLATE cage_parts.
Proof. left. reflexivity. Qed.

Lemma scale_in_parts (r : Z) : In r scale_parts -> In r cage_parts.
Proof. intros H. right. apply in_or_app. left. exact H. Qed.

Lemma rotate_in_parts : In ED_GIZMO_CAGE2D_PART_ROTATE cage_parts.
Proof. right. apply in_or_app. right. left. reflexivity. Qed.

Lemma parts_split (r : Z) :
  In r cage_parts ->
  r = ED_GIZMO_CAGE2D_PART_TRANSLATE \/ In r scale_parts
  \/ r = ED_GIZMO_CAGE2D_PART_ROTATE.
Proof.
  intros [H | H]; [auto|].
  apply in_app_or in H as [H | [H | []]]; auto.
Qed.

(** What the distinctness of the parts is used for: translate is no scale
    part and is not rotate, rotate is no scale part. *)
Lemma parts_distinct :
  NoDup cage_parts ->
  ~ In ED_GIZMO_CAGE2D_PART_TRANSLATE scale_parts
  /\ ED_GIZMO_CAGE2D_PART_TRANSLATE <> ED_GIZMO_CAGE2D_PART_ROTATE
  /\ ~ In ED_GIZMO_CAGE2D_PART_ROTATE scale_parts.
Proof.
  unfold cage_parts. intros Hparts.
  apply NoDup_cons_iff in Hparts as [Hhead Htail].
  apply NoDup_remove_2 in Htail. rewrite app_nil_r in Htail.
  repeat split; auto.
  - intros H. apply Hhead, in_or_app. left. exact H.
  - intros H. apply Hhead, in_or_app. right. left. congruence.
Qed.

(** Pairwise distinctness out of a [NoDup] over an explicit list. *)
Ltac split_nodup :=
  repeat match goal with
  | H : NoDup (_ :: _) |- _ =>
      let Hn := fresh "Hn" in
      let Hd := fresh "Hd" in
      inversion H as [|? ? Hn Hd]; subst; clear H; cbn [In app] in Hn
  | H : NoDup [] |- _ => clear H
  end.

(** The hit test answers [-1] whenever the mouse position cannot be
    projected onto the gizmo or the view scale of the cage cannot be
    computed (an axis of zero length on screen), whatever transforms are
    enabled; in the second case the margin handed back is zero. *)
Theorem test_select_fails_closed
    (C : bContext) (gz : wmGizmo) (mval : Z * Z) :
  gizmo_window_project_2d C gz
    (F32.of_int (fst mval), F32.of_int (snd mval)) 2 true = None
  \/ gizmo_calc_rect_view_scale gz (dimensions gz) = None ->
  gizmo_cage2d_test_select C gz mval = -1
  /\ (gizmo_calc_rect_view_scale gz (dimensions gz) = None ->
      gizmo_calc_rect_view_margin gz (dimensions gz)
      = (false, (F32.zero, F32.zero))).
Proof.
  intros Hfail. split; [|apply margin_of_scale].
  unfold gizmo_cage2d_test_select.
  destruct (gizmo_window_project_2d _ _ _ _ _) as [pt|]; [|reflexivity].
  destruct Hfail as [Hproj | Hscale]; [discriminate|].
  rewrite (margin_of_scale _ _ Hscale). reflexivity.
Qed.

(** With the ten parts and [-1] pairwise distinct, the hit test never
    reports a part whose transform is disabled: translate needs the
    translate flag, the eight scale parts need one of the two scale flags,
    rotate needs the rotate flag; and a cage with no transform enabled is
    never hit. *)
Theorem test_select_respects_transform
    (C : bContext) (gz : wmGizmo) (mval : Z * Z) :
  NoDup (-1 :: cage_parts) ->
  let r := gizmo_cage2d_test_select C gz mval in
  (r = -1 \/ In r cage_parts)
  /\ (r = ED_GIZMO_CAGE2D_PART_TRANSLATE ->
      has_flag (transform gz) ED_GIZMO_CAGE2D_XFORM_FLAG_TRANSLATE = true)
  /\ (In r scale_parts ->
      has_flag (transform gz)
        (Z.lor ED_GIZMO_CAGE2D_XFORM_FLAG_SCALE
               ED_GIZMO_CAGE2D_XFORM_FLAG_SCALE_UNIFORM) = true)
  /\ (r = ED_GIZMO_CAGE2D_PART_ROTATE ->
      has_flag (transform gz) ED_GIZMO_CAGE2D_XFORM_FLAG_ROTATE = true)
  /\ (transform gz = 0 -> r = -1).
Proof.
  intros Hdistinct r.
  pose proof (test_select_cases C gz mval) as Hcases. fold r in Hcases.
  clearbody r.
  apply NoDup_cons_iff in Hdistinct as [Hminus Hparts].
  pose proof (parts_distinct Hparts) as (Htr_sc & Htr_rot & Hrot_sc).
  assert (Hzero : transform gz = 0 ->
                  forall mask, has_flag (transform gz) mask = false)
    by (intros ->; apply has_flag_zero).
  destruct Hcases as [Hr | [[Hr Hf] | [[Hr Hf] | [Hr Hf]]]];
    repeat split; intros;
    try (rewrite Hzero in Hf by assumption; discriminate);
    try assumption.
  all: try (subst r; contradiction).
  all: try (left; assumption).
  all: try (right; subst r;
            first [apply translate_in_parts | apply rotate_in_parts]).
  all: try (right; apply scale_in_parts; assumption).
  all: try congruence.
  all: exfalso; apply Hminus; rewrite <- Hr.
  all: match goal with
       | H : In _ scale_parts |- _ => apply scale_in_parts, H
       | H : _ = ED_GIZMO_CAGE2D_PART_TRANSLATE |- _ =>
           rewrite H; apply translate_in_parts
       | H : _ = ED_GIZMO_CAGE2D_PART_ROTATE |- _ =>
           rewrite H; apply rotate_in_parts
       end.
Qed.

(** With distinct parts and distinct cursors, the cursor is the cross
    exactly over the rotate part of a gizmo outside a 3D group, the default
    cursor exactly when such a gizmo has no part highlighted, and the
    scroll cursor in every other case, in particular always in a 3D
    group. *)
Theorem get_cursor_characterised (gz : wmGizmo) :
  NoDup cage_parts -> NoDup cursors ->
  let c := gizmo_cage2d_get_cursor gz in
  let in_3d := has_flag (parent_gzgroup_type_flag gz) WM_GIZMOGROUPTYPE_3D in
  (c = WM_CURSOR_CROSS <->
   in_3d = false /\ highlight_part gz = ED_GIZMO_CAGE2D_PART_ROTATE)
  /\ (c = WM_CURSOR_DEFAULT <->
      in_3d = false /\ ~ In (highlight_part gz) cage_parts)
  /\ (c = WM_CURSOR_NSEW_SCROLL <->
      in_3d = true
      \/ (In (highlight_part gz) cage_parts
          /\ highlight_part gz <> ED_GIZMO_CAGE2D_PART_ROTATE)).
Proof.
  intros Hparts Hcursors c in_3d.
  pose proof (parts_distinct Hparts) as (Htr_sc & Htr_rot & Hrot_sc).
  unfold cursors in Hcursors. split_nodup.
  assert (Hc1 : WM_CURSOR_NSEW_SCROLL <> WM_CURSOR_DEFAULT) by tauto.
  assert (Hc2 : WM_CURSOR_CROSS <> WM_CURSOR_DEFAULT) by tauto.
  assert (Hc3 : WM_CURSOR_CROSS <> WM_CURSOR_NSEW_SCROLL) by tauto.
  clear Hn Hn0 Hn1.
  assert (Hcases :
    (in_3d = true /\ c = WM_CURSOR_NSEW_SCROLL)
    \/ (in_3d = false
        /\ ((highlight_part gz = ED_GIZMO_CAGE2D_PART_TRANSLATE
             \/ In (highlight_part gz) scale_parts)
            /\ c = WM_CURSOR_NSEW_SCROLL
            \/ ~ (highlight_part gz = ED_GIZMO_CAGE2D_PART_TRANSLATE
                  \/ In (highlight_part gz) scale_parts)
               /\ (highlight_part gz = ED_GIZMO_CAGE2D_PART_ROTATE
                   /\ c = WM_CURSOR_CROSS
                   \/ highlight_part gz <> ED_GIZMO_CAGE2D_PART_ROTATE
                      /\ c = WM_CURSOR_DEFAULT)))).
  { subst c in_3d. unfold gizmo_cage2d_get_cursor, scale_parts.
    destruct (has_flag (parent_gzgroup_type_flag gz) WM_GIZMOGROUPTYPE_3D);
      [left; auto | right; split; [reflexivity|]].
    repeat match goal with
    | |- context [if (?a =? ?b)%Z || _ then _ else _] =>
        destruct (Z.eqb_spec a b);
        [left; split; [cbn [In]; intuition congruence | reflexivity]
        | cbn [orb]]
    | |- context [if (?a =? ?b)%Z then _ else _] =>
        destruct (Z.eqb_spec a b);
        [first [left; split; [cbn [In]; intuition congruence | reflexivity]
               | right; split; [cbn [In]; intuition congruence
                               | left; split; [assumption | reflexivity]]]
        |]
    end.
    right. split; [cbn [In]; intuition congruence|]. right. auto. }
  clearbody c in_3d.
  assert (Hfront : highlight_part gz = ED_GIZMO_CAGE2D_PART_TRANSLATE
                   \/ In (highlight_part gz) scale_parts ->
                   In (highlight_part gz) cage_parts
                   /\ highlight_part gz <> ED_GIZMO_CAGE2D_PART_ROTATE).
  { intros [H | H].
    - rewrite H. split; [apply translate_in_parts | exact Htr_rot].
    - split; [apply scale_in_parts, H | intros E; rewrite E in H; auto]. }
  destruct Hcases as [[H3 Hc] | [H3 [[Hp Hc] | [Hp [[Hr Hc] | [Hr Hc]]]]]];
    subst c; rewrite H3.
  - repeat split; intros; auto; try congruence;
      try (destruct H; discriminate).
  - destruct (Hfront Hp) as [Hin Hne].
    repeat split; intros; auto; try congruence;
      try (destruct H; congruence); try (destruct H; contradiction).
  - repeat split; intros; auto; try congruence.
    + destruct H as [_ H]. exfalso. apply H. rewrite Hr.
      apply rotate_in_parts.
    + destruct H as [H | [_ H]]; [discriminate | contradiction].
  - assert (Hout : ~ In (highlight_part gz) cage_parts).
    { intros H. apply parts_split in H. tauto. }
    repeat split; intros; auto; try congruence;
      try (destruct H; congruence).
    destruct H as [H | [H _]]; [discriminate | contradiction].
Qed.

(** [gizmo_cage2d_setup] raises the two draw flags, keeps every flag that
    was raised before, changes nothing else in the gizmo, and setting up
    twice is setting up once. *)
Theorem setup_flag_bits (gz : wmGizmo) :
  let gz' := gizmo_cage2d_setup gz in
  let mask := Z.lor WM_GIZMO_DRAW_MODAL WM_GIZMO_DRAW_NO_SCALE in
  Z.land (flag gz') mask = mask
  /\ Z.land (flag gz') (flag gz) = flag gz
  /\ gizmo_cage2d_setup gz' = gz'
  /\ set_flag gz' (flag gz) = gz.
Proof.
  cbn zeta. unfold gizmo_cage2d_setup, set_flag. cbn.
  repeat split.
  - apply Z.bits_inj. intros n.
    rewrite Z.land_spec, !Z.lor_spec.
    destruct (Z.testbit (flag gz) n), (Z.testbit WM_GIZMO_DRAW_MODAL n),
      (Z.testbit WM_GIZMO_DRAW_NO_SCALE n); reflexivity.
  - apply Z.bits_inj. intros n.
    rewrite Z.land_spec, !Z.lor_spec.
    destruct (Z.testbit (flag gz) n), (Z.testbit WM_GIZMO_DRAW_MODAL n),
      (Z.testbit WM_GIZMO_DRAW_NO_SCALE n); reflexivity.
  - f_equal. apply Z.bits_inj. intros n.
    rewrite !Z.lor_spec.
    destruct (Z.testbit (flag gz) n), (Z.testbit WM_GIZMO_DRAW_MODAL n),
      (Z.testbit WM_GIZMO_DRAW_NO_SCALE n); reflexivity.
  - destruct gz; reflexivity.
Qed.

Lemma property_update_keeps_data
    (gz gz' : wmGizmo) (gz_prop : wmGizmoProperty) :
  gizmo_cage2d_property_update gz gz_prop = Returned gz'
  \/ gizmo_cage2d_property_update gz gz_prop = Asserted gz' ->
  interaction_data gz' = interaction_data gz.
Proof.
  unfold gizmo_cage2d_property_update.
  destruct (gz_prop_idname gz_prop) as [idname|];
    [|intros [H | H]; discriminate].
  destruct (String.eqb idname _);
    [destruct (_ =? 16)|];
    intros [H | H]; inversion H; reflexivity.
Qed.

Lemma property_updates_keep_data (props : list wmGizmoProperty) :
  forall gz gz' : wmGizmo,
    property_updates props gz = Some gz' ->
    interaction_data gz' = interaction_data gz.
Proof.
  induction props as [|gz_prop props IH]; cbn; intros gz gz' H.
  - injection H as <-. reflexivity.
  - destruct (gizmo_cage2d_property_update gz gz_prop) as [g | g |] eqn:Hup;
      try discriminate;
      rewrite (IH _ _ H); apply (property_update_keeps_data gz gz_prop); auto.
Qed.

(** Cancelling puts the offset matrix back: after [gizmo_cage2d_invoke],
    whatever target properties were updated in between (without a crash),
    [gizmo_cage2d_exit] with [cancel] set returns with the offset matrix
    that the gizmo had when it was invoked, and the only matrix it writes to
    the target property is that one; without [cancel] it leaves the offset
    matrix as the updates made it and writes nothing.  The dial is null
    afterwards in both cases. *)
Theorem invoke_exit_cancel_restores
    (C C' : bContext) (gz gz2 : wmGizmo) (event_mval : Z * Z)
    (props : list wmGizmoProperty) :
  property_updates props (snd (gizmo_cage2d_invoke C gz event_mval))
  = Some gz2 ->
  (exists gz3 written,
      gizmo_cage2d_exit C' gz2 true = Returned (gz3, written)
      /\ matrix_offset gz3 = matrix_offset gz
      /\ (written = None
          \/ exists gz_prop, written = Some (gz_prop, matrix_offset gz))
      /\ (exists data, interaction_data gz3 = Some data /\ dial data = None))
  /\ (exists gz4,
        gizmo_cage2d_exit C' gz2 false = Returned (gz4, None)
        /\ matrix_offset gz4 = matrix_offset gz2
        /\ (exists data, interaction_data gz4 = Some data
                         /\ dial data = None)).
Proof.
  intros Hupdates.
  apply property_updates_keep_data in Hupdates. cbn in Hupdates.
  unfold gizmo_cage2d_exit. rewrite Hupdates. cbn [negb].
  split.
  - eexists. eexists. split; [reflexivity|]. cbn.
    split; [reflexivity|]. split; [|eauto].
    destruct (gz_prop_idname _); eauto.
  - eexists. split; [reflexivity|]. cbn. eauto.
Qed.

End Cage2dFacts.

(** ** Properties of the cage drawing *)

Section Cage2dDrawFacts.

Import Cage2d.

Context {T : GizmoTypes} {G : GizmoLib}.

Local Open Scope Z_scope.

(** Reading the first [length vs] slots of [verts] finds every one
    assigned. *)
Lemma emit_verts_assigned (attr : String.string) (vs : list float2) :
  emit_verts attr vs (length vs)
  = map (fun v => immVertex2fv attr (Some v)) vs.
Proof.
  unfold emit_verts. induction vs as [|v vs IH]; [reflexivity|].
  cbn [length seq map nth_error]. f_equal.
  rewrite <- seq_shift, map_map. exact IH.
Qed.

(** Case analysis along the [switch] of [cage2d_draw_box_interaction]. *)
Ltac switch_cases :=
  repeat (match goal with
          | |- context [if (?a =? ?b)%Z then _ else _] =>
              destruct (Z.eqb_spec a b)
          end; cbv iota).

Lemma box_shape_facts
    (highlighted : Z) (size margin : float2) (is_solid : bool)
    (draw_options : Z) (shape : BoxShape) :
  box_interaction_shape highlighted size margin is_solid draw_options
  = Some shape ->
  verts_len shape = length (verts shape)
  /\ verts shape <> []
  /\ (is_solid = true ->
      verts_len shape = 4%nat /\ prim_type shape = GPU_PRIM_TRI_FAN
      /\ unreachable shape = false)
  /\ (is_solid = false ->
      (prim_type shape = GPU_PRIM_LINE_STRIP
       \/ prim_type shape = GPU_PRIM_LINES)
      /\ (unreachable shape = true ->
          highlighted = ED_GIZMO_CAGE2D_PART_TRANSLATE
          /\ highlighted <> ED_GIZMO_CAGE2D_PART_ROTATE
          /\ has_flag draw_options
               ED_GIZMO_CAGE2D_DRAW_FLAG_XFORM_CENTER_HANDLE = false)).
Proof.
  unfold box_interaction_shape, edge_shape, corner_shape.
  switch_cases; try discriminate;
    try match goal with
        | |- context [has_flag draw_options ?m] =>
            destruct (has_flag draw_options m) eqn:Hcenter
        end;
    destruct is_solid; intros Hshape; injection Hshape as <-;
    cbn [verts verts_len prim_type unreachable length negb Nat.add];
    repeat split; auto; intros; discriminate.
Qed.

Lemma imm_run_app (st : ImmState) (a b : list GPUCall) :
  imm_run st (a ++ b)
  = match imm_run st a with
    | Some st' => imm_run st' b
    | None => None
    end.
Proof.
  revert st; induction a as [|c a IH]; intros st; cbn; [reflexivity|].
  destruct (imm_step st c); [apply IH | reflexivity].
Qed.

Lemma imm_run_verts (attr : String.string) (vs : list float2)
    (b : bool) (k d : nat) :
  imm_run {| bound := b; open_block := Some (length vs + k)%nat;
             matrix_depth := d |}
          (map (fun v => immVertex2fv attr (Some v)) vs)
  = Some {| bound := b; open_block := Some k; matrix_depth := d |}.
Proof.
  induction vs as [|v vs IH]; cbn; [reflexivity | exact IH].
Qed.

Lemma blocks_app (a b : list GPUCall) : blocks (a ++ b) = blocks a ++ blocks b.
Proof. apply flat_map_app. Qed.

Lemma loaded_ids_app (a b : list GPUCall) :
  loaded_ids (a ++ b) = loaded_ids a ++ loaded_ids b.
Proof. apply flat_map_app. Qed.

Lemma emit_verts_quiet (attr : String.string) (vs : list float2) (n : nat) :
  blocks (emit_verts attr vs n) = []
  /\ loaded_ids (emit_verts attr vs n) = [].
Proof.
  unfold emit_verts. induction (seq 0 n) as [|i l [IH1 IH2]]; cbn; auto.
Qed.

Lemma box_interaction_calls_clean
    (color : float4) (shape : BoxShape) (line_width : float)
    (is_solid : bool) (d : nat) :
  verts_len shape = length (verts shape) -> verts shape <> [] ->
  imm_run (idle_at d) (box_interaction_calls color shape line_width is_solid)
  = Some (idle_at d).
Proof.
  intros Hlen Hne. unfold box_interaction_calls.
  rewrite Hlen, emit_verts_assigned.
  destruct (verts shape) as [|v vs]; [contradiction|].
  destruct is_solid; cbn [app imm_run imm_step idle_at bound open_block
    matrix_depth andb negb length map];
    repeat (rewrite <- ?app_assoc; rewrite imm_run_app;
            rewrite <- (Nat.add_0_r (length vs)) at 1;
            rewrite imm_run_verts;
            cbn [app imm_run imm_step bound open_block matrix_depth
                 andb negb length]);
    reflexivity.
Qed.

Lemma box_interaction_calls_quiet
    (color : float4) (shape : BoxShape) (line_width : float)
    (is_solid : bool) :
  loaded_ids (box_interaction_calls color shape line_width is_solid) = []
  /\ (is_solid = true ->
      blocks (box_interaction_calls color shape line_width is_solid)
      = [(prim_type shape, verts_len shape)]).
Proof.
  unfold box_interaction_calls.
  assert (Hb : forall a,
             blocks (emit_verts a (verts shape) (verts_len shape)) = [])
    by (intros; apply emit_verts_quiet).
  assert (Hl : forall a,
             loaded_ids (emit_verts a (verts shape) (verts_len shape)) = [])
    by (intros; apply emit_verts_quiet).
  destruct is_solid;
    rewrite ?blocks_app, ?loaded_ids_app, ?Hb, ?Hl; cbn;
    rewrite ?blocks_app, ?loaded_ids_app, ?Hb, ?Hl; cbn;
    split; auto; intros; discriminate.
Qed.

(** What a call of [cage2d_draw_box_interaction] amounts to. *)
Lemma box_interaction_spec
    (color : float4) (highlighted : Z) (size margin : float2)
    (line_width : float) (is_solid : bool) (draw_options : Z) :
  let o := cage2d_draw_box_interaction color highlighted size margin
             line_width is_solid draw_options in
  (forall d, imm_run (idle_at d) (calls_of o) = Some (idle_at d))
  /\ loaded_ids (calls_of o) = []
  /\ (is_solid = true ->
      has_asserted o = false
      /\ (blocks (calls_of o) = []
          \/ blocks (calls_of o) = [(GPU_PRIM_TRI_FAN, 4%nat)]))
  /\ (has_asserted o = true ->
      is_solid = false
      /\ highlighted = ED_GIZMO_CAGE2D_PART_TRANSLATE
      /\ highlighted <> ED_GIZMO_CAGE2D_PART_ROTATE
      /\ has_flag draw_options
           ED_GIZMO_CAGE2D_DRAW_FLAG_XFORM_CENTER_HANDLE = false).
Proof.
  intros o. subst o. unfold cage2d_draw_box_interaction.
  destruct (box_interaction_shape highlighted size margin is_solid
              draw_options) as [shape|] eqn:Hshape.
  2: { cbn. repeat split; auto; intros; discriminate. }
  destruct (box_shape_facts _ _ _ _ _ Hshape)
    as (Hlen & Hne & Hsolid & Hwire).
  destruct (box_interaction_calls_quiet color shape line_width is_solid)
    as [Hids Hblocks].
  assert (Hassert : box_interaction_asserted shape is_solid = true ->
                    is_solid = false /\ unreachable shape = true).
  { unfold box_interaction_asserted. destruct is_solid.
    - destruct (Hsolid eq_refl) as (_ & -> & ->). discriminate.
    - destruct (Hwire eq_refl) as [[-> | ->] _];
        destruct (unreachable shape); cbn; auto; discriminate. }
  cbn [calls_of has_asserted fst snd].
  split; [intros d; apply box_interaction_calls_clean; assumption|].
  split; [assumption|]. split.
  - intros ->. split.
    + destruct (box_interaction_asserted shape true); [|reflexivity].
      destruct (Hassert eq_refl); discriminate.
    + right. rewrite Hblocks by reflexivity.
      destruct (Hsolid eq_refl) as (-> & -> & _). reflexivity.
  - intros Ha. destruct (Hassert Ha) as [-> Hun].
    destruct (Hwire eq_refl) as [_ Hreach].
    destruct (Hreach Hun) as (? & ? & ?). auto.
Qed.

Lemma calls_then_draw (a b : Drawn) :
  calls_of (then_draw a b) = calls_of a ++ calls_of b.
Proof. reflexivity. Qed.

Lemma asserted_then_draw (a b : Drawn) :
  has_asserted (then_draw a b) = has_asserted a || has_asserted b.
Proof. reflexivity. Qed.

Lemma fold_then_draw (A : Type) (f : A -> Drawn) (l : list A) :
  forall acc : Drawn,
    fold_left (fun acc p => then_draw acc (f p)) l acc
    = (has_asserted acc || existsb (fun p => has_asserted (f p)) l,
       calls_of acc ++ flat_map (fun p => calls_of (f p)) l).
Proof.
  induction l as [|p l IH]; intros [fa ta]; cbn [fold_left existsb flat_map].
  - cbn. rewrite orb_false_r, app_nil_r. reflexivity.
  - rewrite IH. cbn. rewrite orb_assoc, app_assoc. reflexivity.
Qed.

Lemma clean_nil : clean [].
Proof. intros d. reflexivity. Qed.

Lemma clean_app (a b : list GPUCall) : clean a -> clean b -> clean (a ++ b).
Proof. intros Ha Hb d. rewrite imm_run_app, Ha. apply Hb. Qed.

Lemma clean_flat_map (A : Type) (f : A -> list GPUCall) (l : list A) :
  (forall p, clean (f p)) -> clean (flat_map f l).
Proof.
  intros Hf. induction l as [|p l IH]; cbn; [apply clean_nil|].
  apply clean_app; auto.
Qed.

Lemma clean_box_interaction
    (color : float4) (highlighted : Z) (size margin : float2)
    (line_width : float) (is_solid : bool) (draw_options : Z) :
  clean (calls_of (cage2d_draw_box_interaction color highlighted size margin
                     line_width is_solid draw_options)).
Proof.
  exact (proj1 (box_interaction_spec color highlighted size margin
                  line_width is_solid draw_options)).
Qed.

Lemma clean_box_corners (r : rctf) (margin : float2) (color : float3)
    (line_width : float) :
  clean (cage2d_draw_box_corners r margin color line_width).
Proof. intros d. reflexivity. Qed.

Lemma clean_circle_wire (r : rctf) (margin : float2) (color : float3)
    (transform_flag draw_options : Z) (line_width : float) :
  clean (cage2d_draw_circle_wire r margin color transform_flag draw_options
           line_width).
Proof.
  intros d. unfold cage2d_draw_circle_wire.
  destruct (has_flag transform_flag ED_GIZMO_CAGE2D_XFORM_FLAG_ROTATE),
    (has_flag transform_flag ED_GIZMO_CAGE2D_XFORM_FLAG_TRANSLATE),
    (has_flag draw_options ED_GIZMO_CAGE2D_DRAW_FLAG_XFORM_CENTER_HANDLE);
    reflexivity.
Qed.

Lemma clean_circle_handles (r : rctf) (margin : float2) (color : float3)
    (transform_flag : Z) (solid : bool) :
  clean (cage2d_draw_circle_handles r margin color transform_flag solid).
Proof.
  intros d. unfold cage2d_draw_circle_handles.
  destruct (has_flag transform_flag ED_GIZMO_CAGE2D_XFORM_FLAG_ROTATE),
    solid; reflexivity.
Qed.

Lemma clean_state_call (c : GPUCall) :
  (exists mode, c = GPU_blend mode) \/ (exists id, c = GPU_select_load_id id) ->
  clean [c].
Proof. intros [[m ->] | [i ->]] d; reflexivity. Qed.

(** Between [GPU_matrix_push] and [GPU_matrix_pop]. *)
Lemma framed_clean (m : mat4) (body : list GPUCall) :
  clean body ->
  imm_run imm_idle ([GPU_matrix_push; GPU_matrix_mul m] ++ body
                    ++ [GPU_matrix_pop])
  = Some imm_idle.
Proof.
  intros Hbody. unfold clean, idle_at in Hbody.
  cbn [app imm_run imm_step imm_idle open_block bound matrix_depth].
  rewrite imm_run_app, Hbody. reflexivity.
Qed.

Lemma calls_drawn (t : list GPUCall) : calls_of (drawn t) = t.
Proof. reflexivity. Qed.

Ltac clean_pieces :=
  repeat lazymatch goal with
  | |- clean [] => apply clean_nil
  | |- clean (_ ++ _) => apply clean_app
  | |- clean (flat_map _ _) => apply clean_flat_map; intros
  | |- clean (calls_of (then_draw _ _)) => rewrite calls_then_draw
  | |- clean (calls_of (drawn _)) => rewrite calls_drawn
  | |- clean (calls_of (cage2d_draw_box_interaction _ _ _ _ _ _ _)) =>
      apply clean_box_interaction
  | |- clean (cage2d_draw_box_corners _ _ _ _) => apply clean_box_corners
  | |- clean (cage2d_draw_circle_wire _ _ _ _ _ _) => apply clean_circle_wire
  | |- clean (cage2d_draw_circle_handles _ _ _ _ _) =>
      apply clean_circle_handles
  | |- clean [GPU_blend _] => apply clean_state_call; left; eexists; reflexivity
  | |- clean [GPU_select_load_id _] =>
      apply clean_state_call; right; eexists; reflexivity
  end.

Ltac split_ifs :=
  repeat match goal with
         | |- context [if ?c then _ else _] => destruct c eqn:?
         end.

Lemma draw_intern_clean (gz : wmGizmo) (select highlight : bool)
    (select_id : Z) :
  imm_run imm_idle
    (calls_of (gizmo_cage2d_draw_intern gz select highlight select_id))
  = Some imm_idle.
Proof.
  unfold gizmo_cage2d_draw_intern. cbv zeta.
  rewrite !calls_then_draw. apply framed_clean.
  destruct select.
  - rewrite !calls_then_draw. split_ifs;
      rewrite ?fold_then_draw; cbn [calls_of snd drawn]; clean_pieces.
  - split_ifs; rewrite ?calls_then_draw; cbn [calls_of snd drawn];
      clean_pieces.
Qed.

Lemma asserted_drawn (t : list GPUCall) : has_asserted (drawn t) = false.
Proof. reflexivity. Qed.

Lemma box_solid_never_asserts
    (color : float4) (highlighted : Z) (size margin : float2)
    (line_width : float) (draw_options : Z) :
  has_asserted (cage2d_draw_box_interaction color highlighted size margin
                  line_width true draw_options) = false.
Proof.
  destruct (box_interaction_spec color highlighted size margin line_width
              true draw_options) as (_ & _ & Hsolid & _).
  apply Hsolid. reflexivity.
Qed.

Lemma box_solid_blocks
    (color : float4) (highlighted : Z) (size margin : float2)
    (line_width : float) (draw_options : Z) :
  Forall (eq (GPU_PRIM_TRI_FAN, 4%nat))
    (blocks (calls_of (cage2d_draw_box_interaction color highlighted size
                         margin line_width true draw_options))).
Proof.
  destruct (box_interaction_spec color highlighted size margin line_width
              true draw_options) as (_ & _ & Hsolid & _).
  destruct (Hsolid eq_refl) as [_ [-> | ->]]; repeat constructor.
Qed.

Lemma box_loads_nothing
    (color : float4) (highlighted : Z) (size margin : float2)
    (line_width : float) (is_solid : bool) (draw_options : Z) :
  loaded_ids (calls_of (cage2d_draw_box_interaction color highlighted size
                          margin line_width is_solid draw_options)) = [].
Proof. apply box_interaction_spec. Qed.

Lemma box_wire_asserted
    (color : float4) (highlighted : Z) (size margin : float2)
    (line_width : float) (draw_options : Z) :
  has_asserted (cage2d_draw_box_interaction color highlighted size margin
                  line_width false draw_options) = true ->
  highlighted = ED_GIZMO_CAGE2D_PART_TRANSLATE
  /\ highlighted <> ED_GIZMO_CAGE2D_PART_ROTATE
  /\ has_flag draw_options
       ED_GIZMO_CAGE2D_DRAW_FLAG_XFORM_CENTER_HANDLE = false.
Proof.
  intros H.
  destruct (box_interaction_spec color highlighted size margin line_width
              false draw_options) as (_ & _ & _ & Hassert).
  destruct (Hassert H) as (_ & ? & ? & ?). auto.
Qed.

Lemma existsb_none (A : Type) (g : A -> bool) (l : list A) :
  (forall p, g p = false) -> existsb g l = false.
Proof. intros Hg. induction l; cbn; [|rewrite Hg]; auto. Qed.

Lemma loaded_ids_parts (g : Z -> Z) (f : Z -> list GPUCall) (l : list Z) :
  (forall p, loaded_ids (f p) = [g p]) ->
  loaded_ids (flat_map f l) = map g l.
Proof.
  intros Hf. induction l as [|p l IH]; [reflexivity|].
  cbn [flat_map map]. rewrite loaded_ids_app, IH, Hf. reflexivity.
Qed.

Lemma blocks_parts (A : Type) (f : A -> list GPUCall)
    (P : GPUPrimType * nat -> Prop) (l : list A) :
  (forall p, Forall P (blocks (f p))) -> Forall P (blocks (flat_map f l)).
Proof.
  intros Hf. induction l as [|p l IH]; [constructor|].
  cbn [flat_map]. rewrite blocks_app. apply Forall_app. auto.
Qed.


(** Both drawing callbacks leave the immediate mode as they found it:
    whatever the gizmo, the calls of [gizmo_cage2d_draw] and of
    [gizmo_cage2d_draw_select] bind and unbind their programs in turn, close
    every block with the announced number of assigned vertices, and pop the
    one matrix they pushed. *)
Theorem draw_calls_well_formed (gz : wmGizmo) (select_id : Z) :
  imm_run imm_idle (calls_of (gizmo_cage2d_draw gz)) = Some imm_idle
  /\ imm_run imm_idle (calls_of (gizmo_cage2d_draw_select gz select_id))
     = Some imm_idle.
Proof. split; apply draw_intern_clean. Qed.

(** Drawing the gizmo fails an assertion exactly when it is drawn for
    display with a draw style that is neither the box nor the circle: the
    branch of [cage2d_draw_box_interaction] marked unreachable is never
    reached from [gizmo_cage2d_draw_intern], which draws wire parts only
    when the translate part has its centre handle, and drawing for
    selection never fails one. *)
Theorem draw_assertion_only_for_unknown_style
    (gz : wmGizmo) (select highlight : bool) (select_id : Z) :
  has_asserted (gizmo_cage2d_draw_intern gz select highlight select_id) = true
  <-> select = false
      /\ draw_style gz <> ED_GIZMO_CAGE2D_STYLE_BOX
      /\ draw_style gz <> ED_GIZMO_CAGE2D_STYLE_CIRCLE.
Proof.
  unfold gizmo_cage2d_draw_intern. cbv zeta.
  rewrite !asserted_then_draw, !asserted_drawn, orb_false_r.
  cbn [orb]. destruct select.
  - match goal with |- ?lhs = true <-> _ =>
      assert (Hnone : lhs = false) end.
    { rewrite !asserted_then_draw. split_ifs;
        rewrite ?fold_then_draw; cbn [has_asserted fst];
        rewrite ?asserted_then_draw, ?asserted_drawn,
          ?box_solid_never_asserts;
        cbn [orb]; rewrite ?orb_false_r; try reflexivity;
        apply existsb_none;
        intros p; rewrite asserted_then_draw, asserted_drawn,
                    box_solid_never_asserts; reflexivity. }
    rewrite Hnone. split; [discriminate | intros [H _]; discriminate].
  - destruct (Z.eqb_spec (draw_style gz) ED_GIZMO_CAGE2D_STYLE_BOX)
      as [Hbox | Hbox].
    + match goal with |- ?lhs = true <-> _ =>
        assert (Hnone : lhs = false) end.
      { rewrite !asserted_then_draw, asserted_drawn. cbn [orb].
        apply orb_false_intro.
        - destruct (Z.eqb_spec (highlight_part gz)
                      ED_GIZMO_CAGE2D_PART_TRANSLATE) as [Hp | Hp];
            [destruct (has_flag (draw_options gz) _) eqn:Hcenter|];
            try apply asserted_drawn;
            match goal with |- ?a = false =>
              destruct a eqn:Ha; [|reflexivity] end;
            apply box_wire_asserted in Ha; destruct Ha as (? & ? & ?);
            congruence.
        - destruct (has_flag (transform gz) _);
            try apply asserted_drawn;
            match goal with |- ?a = false =>
              destruct a eqn:Ha; [|reflexivity] end;
            apply box_wire_asserted in Ha; destruct Ha as (? & ? & ?);
            congruence. }
      rewrite Hnone. split; [discriminate | intros (_ & H & _); contradiction].
    + destruct (Z.eqb_spec (draw_style gz) ED_GIZMO_CAGE2D_STYLE_CIRCLE)
        as [Hcircle | Hcircle].
      * rewrite asserted_drawn.
        split; [discriminate | intros (_ & _ & H); contradiction].
      * cbn. split; auto.
Qed.

(** Drawing for selection loads, in this order, the identifier
    [select_id | part] of each of the eight scale parts when scaling is
    enabled and that of the translate part when translation is enabled, and
    no other; the rotate handle is drawn under the identifier loaded last.
    Drawing for display loads none. *)
Theorem draw_select_loads_part_ids (gz : wmGizmo) (select_id : Z) :
  loaded_ids (calls_of (gizmo_cage2d_draw_select gz select_id))
  = (if has_flag (transform gz) ED_GIZMO_CAGE2D_XFORM_FLAG_SCALE
     then map (Z.lor select_id) scale_parts else [])
    ++ (if has_flag (transform gz) ED_GIZMO_CAGE2D_XFORM_FLAG_TRANSLATE
        then [Z.lor select_id ED_GIZMO_CAGE2D_PART_TRANSLATE] else [])
  /\ loaded_ids (calls_of (gizmo_cage2d_draw gz)) = [].
Proof.
  unfold gizmo_cage2d_draw_select, gizmo_cage2d_draw,
    gizmo_cage2d_draw_intern. cbv zeta.
  split.
  - rewrite !calls_then_draw, !calls_drawn, !loaded_ids_app.
    cbn [loaded_ids flat_map app]. rewrite app_nil_r.
    split_ifs; rewrite ?fold_then_draw; cbn [calls_of snd drawn];
      rewrite ?calls_then_draw, ?calls_drawn, ?loaded_ids_app,
        ?box_loads_nothing;
      cbn [app loaded_ids flat_map]; rewrite ?app_nil_r; try reflexivity;
      rewrite (loaded_ids_parts (Z.lor select_id));
      try reflexivity; intros;
      rewrite calls_then_draw, calls_drawn, loaded_ids_app,
        box_loads_nothing; reflexivity.
  - rewrite !calls_then_draw, !calls_drawn, !loaded_ids_app.
    cbn [loaded_ids flat_map app]. rewrite app_nil_r.
    unfold cage2d_draw_box_corners, cage2d_draw_circle_wire,
      cage2d_draw_circle_handles.
    split_ifs;
      rewrite ?calls_then_draw, ?calls_drawn, ?loaded_ids_app,
        ?box_loads_nothing;
      reflexivity.
Qed.

(** Drawing for selection draws nothing but quads: every block that
    [gizmo_cage2d_draw_select] opens is a triangle fan of four vertices. *)
Theorem draw_select_draws_quads (gz : wmGizmo) (select_id : Z) :
  Forall (eq (GPU_PRIM_TRI_FAN, 4%nat))
    (blocks (calls_of (gizmo_cage2d_draw_select gz select_id))).
Proof.
  unfold gizmo_cage2d_draw_select, gizmo_cage2d_draw_intern. cbv zeta.
  rewrite !calls_then_draw, !calls_drawn, !blocks_app.
  cbn [blocks flat_map app].
  split_ifs; rewrite ?fold_then_draw; cbn [calls_of snd drawn];
    rewrite ?calls_then_draw, ?calls_drawn;
    repeat first
      [ apply Forall_nil
      | apply Forall_app; split
      | apply box_solid_blocks
      | apply blocks_parts; intros; rewrite calls_then_draw, calls_drawn,
          blocks_app
      | rewrite blocks_app
      | progress cbn [blocks flat_map app] ].
Qed.

End Cage2dDrawFacts.


(** ** The further statements on concrete inputs *)

Module MoreInstances.

Import Reference Samples.

Local Open Scope f32_scope.

(** C4 as it is worded fails: at roughness one half, with the oversized
    normal [skewed_normal] and the random pair [(0, 0.9)], the direction
    drawn is above the geometric normal [up] and its density is not zero;
    the sampling call stores NaN in all three channels of [eval], and the
    evaluation of that same direction returns zero. *)
Lemma sample_eval_reflect_differ_at_skewed_normal :
  let r := snd (@bsdf_principled_diffuse_sample kernel skewed_closure
                  up slanted float3_zero float3_zero F32.zero nine_tenths
                  blank) in
  in_unit_interval (roughness skewed_closure) = true
  /\ (@dot kernel up (omega_in r) >? F32.zero) = true
  /\ (pdf r =? F32.zero) = false
  /\ eval r = nan3
  /\ fst (@bsdf_principled_diffuse_eval_reflect kernel skewed_closure
            slanted (omega_in r) F32.one)
     = float3_zero
  /\ fst (@bsdf_principled_diffuse_eval_reflect kernel skewed_closure
            slanted (omega_in r) F32.one)
     <> eval r.
Proof.
  repeat (split; [vm_compute; reflexivity|]).
  intros Hsame. vm_compute in Hsame. discriminate Hsame.
Qed.

Lemma sample_nonzero_pdf_accepted_witness :
  let r := snd (@bsdf_principled_diffuse_sample kernel (closure F32.half)
                  up slanted float3_zero float3_zero F32.half F32.half
                  blank) in
  (pdf r =? F32.zero) = false
  /\ (@dot kernel up (omega_in r) >? F32.zero) = true.
Proof.
  split; [vm_compute; reflexivity|].
  apply (@sample_nonzero_pdf_accepted kernel (closure F32.half)
           up slanted float3_zero float3_zero F32.half F32.half blank).
  vm_compute; reflexivity.
Defined.

Lemma sample_accepted_below_shading_normal_witness :
  let w := fst (@sample_cos_hemisphere kernel (closure_N (closure F32.half))
                  F32.one F32.zero) in
  (@dot kernel tilted w >? F32.zero) = true
  /\ (@dot kernel (closure_N (closure F32.half)) w <=? F32.zero) = true
  /\ eval (snd (@bsdf_principled_diffuse_sample kernel (closure F32.half)
                  tilted slanted float3_zero float3_zero F32.one F32.zero
                  blank))
     = make_float3 F32.zero F32.zero F32.zero.
Proof.
  split; [vm_compute; reflexivity|].
  split; [vm_compute; reflexivity|].
  apply (@sample_accepted_below_shading_normal kernel (closure F32.half)
           tilted slanted float3_zero float3_zero F32.one F32.zero blank);
    vm_compute; reflexivity.
Defined.

Lemma sample_nan_cosine_disagrees_witness :
  let r := snd (@bsdf_principled_diffuse_sample kernel oversized_closure
                  x_axis slanted float3_zero float3_zero oversized_random
                  F32.zero blank) in
  (@dot kernel x_axis (omega_in r) >? F32.zero) = true
  /\ F32.is_nan (@dot kernel (closure_N oversized_closure) (omega_in r))
     = true
  /\ eval r = nan3.
Proof.
  split; [vm_compute; reflexivity|].
  split; [vm_compute; reflexivity|].
  apply (@sample_nan_cosine_disagrees kernel oversized_closure
           x_axis slanted float3_zero float3_zero oversized_random
           F32.zero blank F32.zero);
    vm_compute; reflexivity.
Defined.

Lemma sample_differentials_untouched_witness :
  @RAY_DIFFERENTIALS kernel_no_differentials = false
  /\ domega_in_dx
       (snd (@bsdf_principled_diffuse_sample kernel_no_differentials
               (closure F32.half) up slanted slanted slanted F32.half
               F32.half blank))
     = domega_in_dx blank.
Proof.
  split; [reflexivity|].
  apply (@sample_differentials_untouched kernel_no_differentials
           (closure F32.half) up slanted slanted slanted F32.half F32.half
           blank).
  left. reflexivity.
Defined.

Import Cage2d Cage2dReference.

Local Open Scope Z_scope.

Lemma test_select_fails_closed_witness :
  @gizmo_calc_rect_view_scale types lib (flat_cage 15)
    (dimensions (flat_cage 15)) = None
  /\ @gizmo_cage2d_test_select types lib tt (flat_cage 15) (100, 0) = -1.
Proof.
  split; [vm_compute; reflexivity|].
  apply (@test_select_fails_closed types lib tt (flat_cage 15) (100, 0)).
  right. vm_compute; reflexivity.
Defined.

Lemma test_select_respects_transform_witness :
  NoDup (-1 :: @cage_parts types lib)
  /\ (@transform types (cage 0 1 (-1)) = 0 ->
      @gizmo_cage2d_test_select types lib tt (cage 0 1 (-1)) (100, 50) = -1).
Proof.
  assert (Hdistinct : NoDup (-1 :: @cage_parts types lib)).
  { repeat (apply NoDup_cons; [cbn; lia|]). apply NoDup_nil. }
  split; [exact Hdistinct|].
  apply (@test_select_respects_transform types lib tt (cage 0 1 (-1))
           (100, 50) Hdistinct).
Defined.

Lemma get_cursor_characterised_witness :
  NoDup (@cage_parts types lib) /\ NoDup (@cursors types lib)
  /\ (@gizmo_cage2d_get_cursor types lib (cage 15 1 9)
      = @WM_CURSOR_CROSS types lib
      <-> has_flag (parent_gzgroup_type_flag (cage 15 1 9))
            (@WM_GIZMOGROUPTYPE_3D types lib) = false
          /\ highlight_part (cage 15 1 9)
             = @ED_GIZMO_CAGE2D_PART_ROTATE types lib).
Proof.
  assert (Hparts : NoDup (@cage_parts types lib)).
  { repeat (apply NoDup_cons; [cbn; lia|]). apply NoDup_nil. }
  assert (Hcursors : NoDup (@cursors types lib)).
  { repeat (apply NoDup_cons; [cbn; lia|]). apply NoDup_nil. }
  split; [exact Hparts|]. split; [exact Hcursors|].
  apply (@get_cursor_characterised types lib (cage 15 1 9) Hparts Hcursors).
Defined.

Lemma invoke_exit_cancel_restores_witness :
  @property_updates types lib dragged_props
    (snd (@gizmo_cage2d_invoke types lib tt (flat_cage 15) (3, 4)))
  = Some dragged_cage
  /\ matrix_offset dragged_cage = unit_m4
  /\ exists gz3 written,
       @gizmo_cage2d_exit types lib tt dragged_cage true
       = Returned (gz3, written)
       /\ matrix_offset gz3 = zero_m4.
Proof.
  split; [vm_compute; reflexivity|].
  split; [vm_compute; reflexivity|].
  destruct (@invoke_exit_cancel_restores types lib tt tt (flat_cage 15)
              dragged_cage (3, 4) dragged_props eq_refl)
    as [(gz3 & written & Hexit & Hmatrix & _) _].
  exists gz3, written. split; [exact Hexit | exact Hmatrix].
Defined.

End MoreInstances.
